(** * Ticket ledger of [final.py]: blocks, proof of work and the registry

    A shallow embedding of the ledger engine of [final.py] (the classes
    [TicketTransaction], [Block] and [TicketBlockchain]) and the proofs
    of its properties.

    Conventions of the embedding:
    - a Python [str] is a Rocq [string]; a character is read as a code
      point below 256;
    - a Python [int] is a [Z];
    - a Python [float] (only the readings of [time.time()]) is a
      [spec_float]; it is never computed with, only rendered by
      [json.dumps];
    - [None] in an optional field is [None] of [option];
    - the registry [self.tickets] is a [gmap] from ticket identifiers to
      ticket records;
    - what the code draws from its environment, the clock reading
      [time.time()] and the fresh identifier [str(uuid.uuid4())], is an
      explicit argument of the operation that draws it;
    - the [while] loop of [proof_of_work] runs on fuel. *)

From Stdlib Require Import ZArith List Ascii String DecimalString SpecFloat.
From stdpp Require Import gmap strings list.

Local Open Scope Z_scope.

(** ** [hashlib.sha256]: SHA-256 (FIPS 180-4) on 32-bit words held in [Z] *)

Module Sha256.

(** Wrap-around to 32 bits: [x mod 2^32], as a mask. *)
Definition mask32 : Z := 0xFFFFFFFF.

Definition w32 (x : Z) : Z := Z.land x mask32.

Definition add32 (x y : Z) : Z := w32 (x + y).

Definition rotr (n x : Z) : Z :=
  Z.lor (Z.shiftr x n) (w32 (Z.shiftl x (32 - n))).

Definition not32 (x : Z) : Z := Z.lxor x mask32.

Definition Ch (x y z : Z) : Z :=
  Z.lxor (Z.land x y) (Z.land (not32 x) z).

Definition Maj (x y z : Z) : Z :=
  Z.lxor (Z.lxor (Z.land x y) (Z.land x z)) (Z.land y z).

Definition Sigma0 (x : Z) : Z :=
  Z.lxor (Z.lxor (rotr 2 x) (rotr 13 x)) (rotr 22 x).

Definition Sigma1 (x : Z) : Z :=
  Z.lxor (Z.lxor (rotr 6 x) (rotr 11 x)) (rotr 25 x).

Definition sigma0 (x : Z) : Z :=
  Z.lxor (Z.lxor (rotr 7 x) (rotr 18 x)) (Z.shiftr x 3).

Definition sigma1 (x : Z) : Z :=
  Z.lxor (Z.lxor (rotr 17 x) (rotr 19 x)) (Z.shiftr x 10).

(** The constants of FIPS 180-4 are taken from their definition: the
    first 32 bits of the fractional parts of the cube roots (round
    constants) and square roots (initial hash value) of the first
    primes. *)
Definition is_prime (n : Z) : bool :=
  forallb (fun d => negb (n mod d =? 0)) (seqZ 2 (n - 2)).

Definition primes64 : list Z :=
  Eval vm_compute in List.filter is_prime (seqZ 2 310).

(** The integer cube root, one bit at a time from bit [bits - 1] down. *)
Fixpoint cbrt_bits (bits : nat) (n r : Z) : Z :=
  match bits with
  | O => r
  | S bits' =>
      let r' := r + 2 ^ Z.of_nat bits' in
      cbrt_bits bits' n (if r' * r' * r' <=? n then r' else r)
  end.

Definition cbrt (n : Z) : Z := cbrt_bits 40 n 0.

Definition K : list Z :=
  Eval vm_compute in map (fun p => w32 (cbrt (Z.shiftl p 96))) primes64.

Definition H0 : list Z :=
  Eval vm_compute in map (fun p => w32 (Z.sqrt (Z.shiftl p 64))) (take 8 primes64).

(** Padding: the byte [0x80], zero bytes up to 56 modulo 64, then the
    length in bits as a 64-bit big-endian integer. *)
Fixpoint be_bytes (n : nat) (x : Z) : list Z :=
  match n with
  | O => []
  | S n' => Z.land (Z.shiftr x (8 * Z.of_nat n')) 0xFF :: be_bytes n' x
  end.

Definition pad (msg : list Z) : list Z :=
  let len := Z.of_nat (length msg) in
  let k := (55 - len) mod 64 in
  msg ++ 0x80 :: replicate (Z.to_nat k) 0 ++ be_bytes 8 (8 * len).

Fixpoint be_words (n : nat) (bs : list Z) : list Z :=
  match n, bs with
  | S n', b0 :: b1 :: b2 :: b3 :: rest =>
      Z.lor (Z.lor (Z.shiftl b0 24) (Z.shiftl b1 16)) (Z.lor (Z.shiftl b2 8) b3)
        :: be_words n' rest
  | _, _ => []
  end.

(** The message schedule, newest word first: [rev_w] holds
    [W(t-1); W(t-2); ...]. *)
Fixpoint schedule (n : nat) (rev_w : list Z) : list Z :=
  match n with
  | O => rev_w
  | S n' =>
      let w2 := nth 1 rev_w 0 in
      let w7 := nth 6 rev_w 0 in
      let w15 := nth 14 rev_w 0 in
      let w16 := nth 15 rev_w 0 in
      schedule n'
        (add32 (add32 (add32 (sigma1 w2) w7) (sigma0 w15)) w16 :: rev_w)
  end.

Record regs := Regs { ra : Z; rb : Z; rc : Z; rd : Z;
                      re : Z; rf : Z; rg : Z; rh : Z }.

Definition round (r : regs) (kw : Z * Z) : regs :=
  let '(k, w) := kw in
  let t1 := add32 (add32 (add32 (add32 (rh r) (Sigma1 (re r)))
                                 (Ch (re r) (rf r) (rg r))) k) w in
  let t2 := add32 (Sigma0 (ra r)) (Maj (ra r) (rb r) (rc r)) in
  Regs (add32 t1 t2) (ra r) (rb r) (rc r) (add32 (rd r) t1) (re r) (rf r) (rg r).

Definition regs_of (h : list Z) : regs :=
  Regs (nth 0 h 0) (nth 1 h 0) (nth 2 h 0) (nth 3 h 0)
       (nth 4 h 0) (nth 5 h 0) (nth 6 h 0) (nth 7 h 0).

Definition compress (h : list Z) (block : list Z) : list Z :=
  let w := rev (schedule 48 (rev (be_words 16 block))) in
  let r0 := regs_of h in
  let r := fold_left round (combine K w) r0 in
  [ add32 (ra r0) (ra r); add32 (rb r0) (rb r);
    add32 (rc r0) (rc r); add32 (rd r0) (rd r);
    add32 (re r0) (re r); add32 (rf r0) (rf r);
    add32 (rg r0) (rg r); add32 (rh r0) (rh r) ].

Fixpoint blocks (n : nat) (h : list Z) (bs : list Z) : list Z :=
  match n with
  | O => h
  | S n' =>
      match bs with
      | [] => h
      | _ => blocks n' (compress h (take 64 bs)) (drop 64 bs)
      end
  end.

Definition digest (msg : list Z) : list Z :=
  let p := pad msg in
  blocks (length p) H0 p.

(** [hexdigest()]: eight lowercase hexadecimal characters per word. *)
Definition hex_char (d : Z) : ascii :=
  if d <? 10 then ascii_of_N (Z.to_N (48 + d))
  else ascii_of_N (Z.to_N (87 + d)).

Fixpoint hex_of (n : nat) (x : Z) : string :=
  match n with
  | O => EmptyString
  | S n' =>
      String (hex_char (Z.land (Z.shiftr x (4 * Z.of_nat n')) 0xF)) (hex_of n' x)
  end.

Definition hex_words (ws : list Z) : string :=
  fold_right (fun w s => hex_of 8 w +:+ s) EmptyString ws.

Definition hexdigest (msg : list Z) : string := hex_words (digest msg).

End Sha256.

(** [str.encode()]: UTF-8, here for code points below 256. *)
Definition encode_char (c : ascii) : list Z :=
  let n := Z.of_N (N_of_ascii c) in
  if n <? 128 then [n]
  else [Z.lor 0xC0 (Z.shiftr n 6); Z.lor 0x80 (Z.land n 0x3F)].

Fixpoint encode (s : string) : list Z :=
  match s with
  | EmptyString => []
  | String c s' => encode_char c ++ encode s'
  end.

Definition sha256_hexdigest (s : string) : string :=
  Sha256.hexdigest (encode s).

(** ** The records of [final.py] *)

Abbreviation float := spec_float.

(** [class TicketTransaction]: the attributes set by [__init__]. *)
Module TicketTransaction.
Record t := mk {
  tx_type : string;
  ticket_id : string;
  owner : string;
  event : option string;
  new_owner : option string;
  timestamp : float
}.
End TicketTransaction.

(** [class Block]: the attributes set by [__init__], and [hash], which is
    assigned later ([None] while the attribute is not set). *)
Module Block.
Record t := mk {
  index : Z;
  transactions : list TicketTransaction.t;
  timestamp : float;
  previous_hash : string;
  nonce : Z;
  hash : option string
}.

Definition set_nonce (n : Z) (b : t) : t :=
  mk (index b) (transactions b) (timestamp b) (previous_hash b) n (hash b).

Definition set_hash (h : string) (b : t) : t :=
  mk (index b) (transactions b) (timestamp b) (previous_hash b) (nonce b) (Some h).
End Block.

(** A value of [self.tickets]: the dict with the keys ["owner"],
    ["status"] and ["event"]. *)
Module Ticket.
Record t := mk {
  owner : string;
  status : string;
  event : string
}.

Definition set_owner (o : string) (k : t) : t := mk o (status k) (event k).
Definition set_status (s : string) (k : t) : t := mk (owner k) s (event k).
End Ticket.

(** [class TicketBlockchain]: the three attributes of an instance. *)
Record TicketBlockchain := Ledger {
  chain : list Block.t;
  pending_transactions : list TicketTransaction.t;
  tickets : gmap string Ticket.t
}.

(** The class attribute [difficulty = 2]. *)
Definition difficulty : Z := 2.

(** ** Strings: [s * n], [startswith], and the text [json.dumps] writes *)

(** [s * n] on a [str]: [n] copies, none when [n <= 0]. *)
Definition str_mul (s : string) (n : Z) : string :=
  Nat.iter (Z.to_nat n) (fun acc => s +:+ acc) EmptyString.

Fixpoint startswith (s prefix : string) {struct prefix} : bool :=
  match prefix, s with
  | EmptyString, _ => true
  | String p prefix', String c s' =>
      if Ascii.eqb p c then startswith s' prefix' else false
  | String _ _, EmptyString => false
  end.

Module Json.

(** An [int]: its decimal digits. *)
Definition dumps_int (z : Z) : string := NilZero.string_of_int (Z.to_int z).

(** The double quote character. *)
Definition quote : string := String (ascii_of_N 34) EmptyString.

(** A character inside a string, with [ensure_ascii]: the short
    escapes, [\u00xx] for what is not printable ASCII. *)
Definition escape_char (c : ascii) : string :=
  let n := Z.of_N (N_of_ascii c) in
  if n =? 34 then "\" +:+ quote
  else if n =? 92 then "\\"
  else if n =? 10 then "\n"
  else if n =? 13 then "\r"
  else if n =? 9 then "\t"
  else if n =? 8 then "\b"
  else if n =? 12 then "\f"
  else if (n <? 32) || (126 <? n) then "\u" +:+ Sha256.hex_of 4 n
  else String c EmptyString.

Fixpoint escape (s : string) : string :=
  match s with
  | EmptyString => EmptyString
  | String c s' => escape_char c +:+ escape s'
  end.

Definition dumps_str (s : string) : string := quote +:+ escape s +:+ quote.

Definition dumps_opt_str (o : option string) : string :=
  match o with
  | None => "null"
  | Some s => dumps_str s
  end.

(** [", ".join(items)] between brackets. *)
Fixpoint join (items : list string) : string :=
  match items with
  | [] => EmptyString
  | [x] => x
  | x :: rest => x +:+ ", " +:+ join rest
  end.

Definition dumps_list (items : list string) : string :=
  "[" +:+ join items +:+ "]".

(** A dict with [sort_keys=True]: the caller gives the pairs in key
    order. *)
Definition dumps_dict (items : list (string * string)) : string :=
  "{" +:+ join (map (fun kv => dumps_str (fst kv) +:+ ": " +:+ snd kv) items) +:+ "}".

End Json.

(** ** Hexadecimal strings *)

(** A character of [0123456789abcdef]. *)
Definition is_hex_digit (c : ascii) : bool :=
  let n := Z.of_N (N_of_ascii c) in
  ((48 <=? n) && (n <=? 57)) || ((97 <=? n) && (n <=? 102)).

Fixpoint all_hex (s : string) : bool :=
  match s with
  | EmptyString => true
  | String c s' => is_hex_digit c && all_hex s'
  end.

(** ** The operations of the ledger *)

(** How a call ends: it returns, it raises ([IndexError], on
    [self.chain[-1]] of an empty chain), or its loop has used up the
    fuel. *)
Inductive outcome (A : Type) : Type :=
| Returns (a : A)
| Raises
| OutOfFuel.

Arguments Returns {A} a.
Arguments Raises {A}.
Arguments OutOfFuel {A}.

(** What [mine] returns: [False], or the new block. *)
Inductive mine_result : Type :=
| MineFalse
| MineBlock (b : Block.t).

(** The text [json.dumps] writes for a [float]: [float.__repr__] of the
    interpreter, which is not part of [final.py]. *)
Class FloatRepr := float_repr : float -> string.

Section Ledger.

Context {FR : FloatRepr}.

(** [tx.to_dict()] as [json.dumps(..., sort_keys=True)] writes it. *)
Definition dumps_transaction (tx : TicketTransaction.t) : string :=
  Json.dumps_dict
    [ ("event", Json.dumps_opt_str (TicketTransaction.event tx));
      ("new_owner", Json.dumps_opt_str (TicketTransaction.new_owner tx));
      ("owner", Json.dumps_str (TicketTransaction.owner tx));
      ("ticket_id", Json.dumps_str (TicketTransaction.ticket_id tx));
      ("timestamp", float_repr (TicketTransaction.timestamp tx));
      ("tx_type", Json.dumps_str (TicketTransaction.tx_type tx)) ].

(** The argument of [json.dumps] in [Block.compute_hash]. *)
Definition block_string (b : Block.t) : string :=
  Json.dumps_dict
    [ ("index", Json.dumps_int (Block.index b));
      ("nonce", Json.dumps_int (Block.nonce b));
      ("previous_hash", Json.dumps_str (Block.previous_hash b));
      ("timestamp", float_repr (Block.timestamp b));
      ("transactions",
        Json.dumps_list (map dumps_transaction (Block.transactions b))) ].

(** [Block.compute_hash]. *)
Definition compute_hash (b : Block.t) : string :=
  sha256_hexdigest (block_string b).

(** The exit test of the loop of [proof_of_work], on the block's current
    hash. *)
Definition meets_difficulty (b : Block.t) : bool :=
  startswith (compute_hash b) (str_mul "0" difficulty).

(** [Block(index, transactions, previous_hash)]: [nonce] defaults to 0,
    the time stamp is the clock reading [now], [hash] is not set. *)
Definition Block_init (now : float) (index : Z)
    (transactions : list TicketTransaction.t) (previous_hash : string) : Block.t :=
  Block.mk index transactions now previous_hash 0 None.

(** [TicketBlockchain.create_genesis_block]. *)
Definition create_genesis_block (now : float) (self : TicketBlockchain)
    : TicketBlockchain :=
  let genesis_block := Block_init now 0 [] "0" in
  let genesis_block := Block.set_hash (compute_hash genesis_block) genesis_block in
  Ledger (chain self ++ [genesis_block]) (pending_transactions self) (tickets self).

(** [TicketBlockchain.__init__]. *)
Definition init (now : float) : TicketBlockchain :=
  create_genesis_block now (Ledger [] [] ∅).

(** [TicketBlockchain.add_transaction]. *)
Definition add_transaction (transaction : TicketTransaction.t)
    (self : TicketBlockchain) : TicketBlockchain :=
  Ledger (chain self) (pending_transactions self ++ [transaction]) (tickets self).

(** The loop of [proof_of_work]: [computed_hash] is the hash of [block]
    at its current nonce; one unit of fuel per run of the loop body. *)
Fixpoint pow_loop (fuel : nat) (block : Block.t) : option (string * Block.t) :=
  let computed_hash := compute_hash block in
  if startswith computed_hash (str_mul "0" difficulty) then
    Some (computed_hash, block)
  else
    match fuel with
    | O => None
    | S fuel' => pow_loop fuel' (Block.set_nonce (Block.nonce block + 1) block)
    end.

(** [TicketBlockchain.proof_of_work]: the returned hash, and the block as
    the call leaves it. *)
Definition proof_of_work (fuel : nat) (block : Block.t)
    : option (string * Block.t) :=
  pow_loop fuel (Block.set_nonce 0 block).

(** [TicketBlockchain.mine]. The new block holds the list that was the
    pending pool; [self.pending_transactions] is then bound to a new
    empty list, so later submissions do not reach the block. *)
Definition mine (fuel : nat) (now : float) (self : TicketBlockchain)
    : outcome (mine_result * TicketBlockchain) :=
  match pending_transactions self with
  | [] => Returns (MineFalse, self)
  | _ :: _ =>
      match last (chain self) with
      | None => Raises
      | Some prev =>
          let new_block :=
            Block_init now (Z.of_nat (length (chain self)))
              (pending_transactions self) (compute_hash prev) in
          match proof_of_work fuel new_block with
          | None => OutOfFuel
          | Some (h, new_block) =>
              let new_block := Block.set_hash h new_block in
              Returns (MineBlock new_block,
                       Ledger (chain self ++ [new_block]) [] (tickets self))
          end
      end
  end.

End Ledger.

(** [TicketBlockchain.issue_ticket]; [uuid] is [str(uuid.uuid4())]. *)
Definition issue_ticket (now : float) (uuid : string) (owner event : string)
    (self : TicketBlockchain) : string * TicketBlockchain :=
  let ticket_id := uuid in
  let tx := TicketTransaction.mk "issue" ticket_id owner (Some event) None now in
  let self := add_transaction tx self in
  (ticket_id,
   Ledger (chain self) (pending_transactions self)
     (<[ticket_id := Ticket.mk owner "valid" event]> (tickets self))).

(** [TicketBlockchain.transfer_ticket]. *)
Definition transfer_ticket (now : float) (ticket_id new_owner : string)
    (self : TicketBlockchain) : bool * TicketBlockchain :=
  match tickets self !! ticket_id with
  | None => (false, self)
  | Some ticket =>
      if negb (String.eqb (Ticket.status ticket) "valid") then (false, self)
      else
        let tx := TicketTransaction.mk "transfer" ticket_id (Ticket.owner ticket)
                    None (Some new_owner) now in
        let self := add_transaction tx self in
        (true,
         Ledger (chain self) (pending_transactions self)
           (<[ticket_id := Ticket.set_owner new_owner ticket]> (tickets self)))
  end.

(** [TicketBlockchain.redeem_ticket]. *)
Definition redeem_ticket (now : float) (ticket_id : string)
    (self : TicketBlockchain) : bool * TicketBlockchain :=
  match tickets self !! ticket_id with
  | None => (false, self)
  | Some ticket =>
      if negb (String.eqb (Ticket.status ticket) "valid") then (false, self)
      else
        let tx := TicketTransaction.mk "redeem" ticket_id (Ticket.owner ticket)
                    None None now in
        let self := add_transaction tx self in
        (true,
         Ledger (chain self) (pending_transactions self)
           (<[ticket_id := Ticket.set_status "redeemed" ticket]> (tickets self)))
  end.

(** [TicketBlockchain.verify_ticket]: the entry, or [None]; the ledger is
    only read. *)
Definition verify_ticket (ticket_id : string) (self : TicketBlockchain)
    : option Ticket.t :=
  match tickets self !! ticket_id with
  | None => None
  | Some ticket => Some ticket
  end.

(** ** Sequences of operations *)

(** One call on the ledger, with what it draws from its environment. *)
Inductive op : Type :=
| Issue (now : float) (uuid : string) (owner event : string)
| Transfer (now : float) (ticket_id new_owner : string)
| Redeem (now : float) (ticket_id : string)
| Verify (ticket_id : string)
| Mine (fuel : nat) (now : float).

(** The value a call returns. *)
Inductive value : Type :=
| VStr (s : string)
| VBool (b : bool)
| VTicket (t : option Ticket.t)
| VMine (r : mine_result).

Section Runs.

Context {FR : FloatRepr}.

Definition run_op (o : op) (self : TicketBlockchain)
    : outcome (value * TicketBlockchain) :=
  match o with
  | Issue now uuid owner event =>
      let '(id, self') := issue_ticket now uuid owner event self in
      Returns (VStr id, self')
  | Transfer now ticket_id new_owner =>
      let '(ok, self') := transfer_ticket now ticket_id new_owner self in
      Returns (VBool ok, self')
  | Redeem now ticket_id =>
      let '(ok, self') := redeem_ticket now ticket_id self in
      Returns (VBool ok, self')
  | Verify ticket_id => Returns (VTicket (verify_ticket ticket_id self), self)
  | Mine fuel now =>
      match mine fuel now self with
      | Returns (r, self') => Returns (VMine r, self')
      | Raises => Raises
      | OutOfFuel => OutOfFuel
      end
  end.

(** The calls of [ops] one after the other, as long as each returns. *)
Fixpoint run_ops (ops : list op) (self : TicketBlockchain)
    : outcome TicketBlockchain :=
  match ops with
  | [] => Returns self
  | o :: ops' =>
      match run_op o self with
      | Returns (_, self') => run_ops ops' self'
      | Raises => Raises
      | OutOfFuel => OutOfFuel
      end
  end.

(** The ledgers a program can hold: a new one, and what a returning call
    makes of one. *)
Inductive reachable : TicketBlockchain -> Prop :=
| reachable_init (now : float) : reachable (init now)
| reachable_step (o : op) (v : value) (self self' : TicketBlockchain) :
    reachable self ->
    run_op o self = Returns (v, self') ->
    reachable self'.

(** [uuid.uuid4()] gives an identifier that is not in use. *)
Definition fresh_uuid (o : op) (self : TicketBlockchain) : Prop :=
  match o with
  | Issue _ uuid _ _ => tickets self !! uuid = None
  | _ => True
  end.

Fixpoint fresh_uuids (ops : list op) (self : TicketBlockchain) : Prop :=
  match ops with
  | [] => True
  | o :: ops' =>
      fresh_uuid o self /\
      match run_op o self with
      | Returns (_, self') => fresh_uuids ops' self'
      | _ => True
      end
  end.


(** The chain is well formed: it has a first block, every block stores
    the hash of its fields and sits at its index, and every block after
    the first names the hash of the block before it and meets the
    difficulty. *)
Definition chain_valid (c : list Block.t) : Prop :=
  c <> [] /\
  (forall (i : nat) (b : Block.t),
     c !! i = Some b ->
     Block.hash b = Some (compute_hash b) /\ Block.index b = Z.of_nat i) /\
  (forall (i : nat) (p b : Block.t),
     c !! i = Some p -> c !! S i = Some b ->
     Block.previous_hash b = compute_hash p /\ meets_difficulty b = true).

End Runs.

(** ** Worked example: the run of [demo_flow] *)

(** The text [json.dumps] writes for the floats of the example and
    their like: a whole number of magnitude below [10^16], given as
    [m * 2^e], as its digits and [.0]; the two zeros; [NaN] and the
    infinities under the names [json.dumps] gives them. For the other
    finite floats (a fraction, or [10^16] and above) the shortest-digits
    rendering of CPython is not modelled: [whole_repr] writes a mark
    there, and no example goes through it. *)
Definition whole_repr (f : float) : string :=
  match f with
  | S754_zero false => "0.0"
  | S754_zero true => "-0.0"
  | S754_infinity false => "Infinity"
  | S754_infinity true => "-Infinity"
  | S754_nan => "NaN"
  | S754_finite s m e =>
      let sign := if s then "-" else EmptyString in
      if (0 <=? e) && (Z.pos m * 2 ^ e <? 10 ^ 16) then
        sign +:+ Json.dumps_int (Z.pos m * 2 ^ e) +:+ ".0"
      else if (e <? 0) && (Z.pos m mod 2 ^ (- e) =? 0)
                && (Z.pos m / 2 ^ (- e) <? 10 ^ 16) then
        sign +:+ Json.dumps_int (Z.pos m / 2 ^ (- e)) +:+ ".0"
      else "?"
  end.

#[export] Instance whole_FloatRepr : FloatRepr := whole_repr.

Definition clock (seconds : positive) : float := S754_finite false seconds 0.

(** The identifier, the clock readings and the calls of the run. *)
Definition demo_id : string := "7c9e6679-7425-40de-944b-e07fc1f90ae7".

Definition demo_ops : list op :=
  [ Issue (clock 1700000060) demo_id "Alice" "Rock Concert";
    Mine 10 (clock 1700000089);
    Transfer (clock 1700000149) demo_id "Bob";
    Mine 10 (clock 1700000157);
    Redeem (clock 1700000217) demo_id;
    Mine 10 (clock 1700000395) ].

(** A new ledger. *)
Definition ledger0 : TicketBlockchain := init (clock 1700000000).

(** After the ticket is issued: one pending record, one valid ticket. *)
Definition ledger1 : TicketBlockchain :=
  snd (issue_ticket (clock 1700000060) demo_id "Alice" "Rock Concert" ledger0).

(** The block that the first [mine] builds, before the search. *)
Definition demo_block : Block.t :=
  Block_init (clock 1700000089) 1 (pending_transactions ledger1)
    "50d82b0d66572ea697cec74d73a843c77a715d6b2384ac18ed0e15346d603cb6".

(** The ledger that [ops] leaves, or the given one if a call does not
    return. *)
Definition after (ops : list op) (self : TicketBlockchain) : TicketBlockchain :=
  match run_ops ops self with
  | Returns self' => self'
  | _ => self
  end.

(** After the first [mine]: two blocks. *)
Definition ledger2 : TicketBlockchain := after (take 2 demo_ops) ledger0.

(** With the ticket redeemed, not yet mined. *)
Definition ledger_redeemed : TicketBlockchain :=
  snd (redeem_ticket (clock 1700000217) demo_id ledger1).

(** ** The records of a ledger, and the registry they give *)

(** Every record the ledger holds, oldest first: those of the blocks,
    then the pending pool. *)
Definition history (self : TicketBlockchain) : list TicketTransaction.t :=
  concat (map Block.transactions (chain self)) ++ pending_transactions self.

(** What one record does to a registry, read off the three calls that
    write a record: [issue_ticket] stores a new valid entry,
    [transfer_ticket] sets the owner, [redeem_ticket] sets the status. *)
Definition apply_record (reg : gmap string Ticket.t) (tx : TicketTransaction.t)
    : gmap string Ticket.t :=
  let id := TicketTransaction.ticket_id tx in
  if String.eqb (TicketTransaction.tx_type tx) "issue" then
    match TicketTransaction.event tx with
    | Some event => <[id := Ticket.mk (TicketTransaction.owner tx) "valid" event]> reg
    | None => reg
    end
  else if String.eqb (TicketTransaction.tx_type tx) "transfer" then
    match TicketTransaction.new_owner tx with
    | Some new_owner => alter (Ticket.set_owner new_owner) id reg
    | None => reg
    end
  else if String.eqb (TicketTransaction.tx_type tx) "redeem" then
    alter (Ticket.set_status "redeemed") id reg
  else reg.

Definition replay (txs : list TicketTransaction.t) : gmap string Ticket.t :=
  foldl apply_record ∅ txs.

Section Nonces.

Context {FR : FloatRepr}.

(** [n] is the nonce the search of [proof_of_work] stops at on [b]. *)
Definition least_nonce (b : Block.t) (n : Z) : Prop :=
  0 <= n /\
  meets_difficulty (Block.set_nonce n b) = true /\
  forall m, 0 <= m < n -> meets_difficulty (Block.set_nonce m b) = false.

(** The block [mine] appends when the search stops at [n]. *)
Definition mined_block (self : TicketBlockchain) (now : float) (prev : Block.t)
    (n : Z) : Block.t :=
  let b := Block.mk (Z.of_nat (length (chain self))) (pending_transactions self)
             now (compute_hash prev) n None in
  Block.set_hash (compute_hash b) b.

(** The block [mine] builds, before the search. *)
Definition new_block (self : TicketBlockchain) (now : float) (prev : Block.t)
    : Block.t :=
  Block_init now (Z.of_nat (length (chain self))) (pending_transactions self)
    (compute_hash prev).

(** The ledger [mine] leaves when the search stops at [n]. *)
Definition mined (self : TicketBlockchain) (now : float) (prev : Block.t)
    (n : Z) : TicketBlockchain :=
  Ledger (chain self ++ [mined_block self now prev n]) [] (tickets self).

End Nonces.

(** ** The request handlers *)

(** The Python values the handlers pass to [jsonify]; a [dict] keeps its
    items in insertion order. *)
#[warnings="-register-all"]
Inductive pyval : Type :=
| PNone
| PBool (b : bool)
| PInt (z : Z)
| PFloat (f : float)
| PStr (s : string)
| PList (items : list pyval)
| PDict (items : list (string * pyval)).

(** [d[key]] on a [PDict]. *)
Fixpoint assoc (key : string) (items : list (string * pyval)) : option pyval :=
  match items with
  | [] => None
  | (k, v) :: rest => if String.eqb k key then Some v else assoc key rest
  end.

Definition dict_get (key : string) (d : pyval) : option pyval :=
  match d with
  | PDict items => assoc key items
  | _ => None
  end.

Definition opt_str (o : option string) : pyval :=
  match o with
  | None => PNone
  | Some s => PStr s
  end.

(** [TicketTransaction.to_dict]: [self.__dict__], the attributes in the
    order [__init__] sets them. *)
Definition to_dict (tx : TicketTransaction.t) : pyval :=
  PDict [ ("tx_type", PStr (TicketTransaction.tx_type tx));
          ("ticket_id", PStr (TicketTransaction.ticket_id tx));
          ("owner", PStr (TicketTransaction.owner tx));
          ("event", opt_str (TicketTransaction.event tx));
          ("new_owner", opt_str (TicketTransaction.new_owner tx));
          ("timestamp", PFloat (TicketTransaction.timestamp tx)) ].

(** A ticket of the registry as the dict it is. *)
Definition ticket_dict (t : Ticket.t) : pyval :=
  PDict [ ("owner", PStr (Ticket.owner t));
          ("status", PStr (Ticket.status t));
          ("event", PStr (Ticket.event t)) ].

(** What a handler returns: the argument of [jsonify] and the status
    code (200 when the handler gives none). *)
Definition response : Type := pyval * Z.

(** [api_issue]; [data] is the object [request.get_json()] gives, with
    string values; [data[key]] raises [KeyError] on a missing key. *)
Definition api_issue (now : float) (uuid : string) (data : gmap string string)
    (blockchain : TicketBlockchain) : outcome (response * TicketBlockchain) :=
  match data !! "owner" with
  | None => Raises
  | Some owner =>
      match data !! "event" with
      | None => Raises
      | Some event =>
          let '(ticket_id, blockchain) :=
            issue_ticket now uuid owner event blockchain in
          Returns ((PDict [("ticket_id", PStr ticket_id)], 201), blockchain)
      end
  end.

(** [api_transfer]. *)
Definition api_transfer (now : float) (data : gmap string string)
    (blockchain : TicketBlockchain) : outcome (response * TicketBlockchain) :=
  match data !! "ticket_id" with
  | None => Raises
  | Some ticket_id =>
      match data !! "new_owner" with
      | None => Raises
      | Some new_owner =>
          let '(success, blockchain) :=
            transfer_ticket now ticket_id new_owner blockchain in
          Returns ((PDict [("success", PBool success)], 200), blockchain)
      end
  end.

(** [api_redeem]. *)
Definition api_redeem (now : float) (data : gmap string string)
    (blockchain : TicketBlockchain) : outcome (response * TicketBlockchain) :=
  match data !! "ticket_id" with
  | None => Raises
  | Some ticket_id =>
      let '(success, blockchain) := redeem_ticket now ticket_id blockchain in
      Returns ((PDict [("success", PBool success)], 200), blockchain)
  end.

(** [api_verify]; the ledger is only read. *)
Definition api_verify (ticket_id : string) (blockchain : TicketBlockchain)
    : response :=
  match verify_ticket ticket_id blockchain with
  | None =>
      (PDict [("valid", PBool false); ("message", PStr "Ticket not found")], 404)
  | Some ticket =>
      (PDict [("valid", PBool (String.eqb (Ticket.status ticket) "valid"));
              ("ticket", ticket_dict ticket)], 200)
  end.

Section Handlers.

Context {FR : FloatRepr}.

(** [api_mine]; reading [block.hash] of a block without the attribute
    raises [AttributeError]. *)
Definition api_mine (fuel : nat) (now : float) (blockchain : TicketBlockchain)
    : outcome (response * TicketBlockchain) :=
  match mine fuel now blockchain with
  | Returns (MineFalse, blockchain) =>
      Returns ((PDict [("message", PStr "No transactions to mine")], 200),
               blockchain)
  | Returns (MineBlock block, blockchain) =>
      match Block.hash block with
      | None => Raises
      | Some h =>
          Returns ((PDict [("index", PInt (Block.index block));
                           ("transactions",
                             PList (map to_dict (Block.transactions block)));
                           ("hash", PStr h)], 200),
                   blockchain)
      end
  | Raises => Raises
  | OutOfFuel => OutOfFuel
  end.

(** One entry of the list [api_chain] builds; [hash] is computed anew,
    not read from the attribute. *)
Definition chain_entry (block : Block.t) : pyval :=
  PDict [ ("index", PInt (Block.index block));
          ("transactions", PList (map to_dict (Block.transactions block)));
          ("timestamp", PFloat (Block.timestamp block));
          ("previous_hash", PStr (Block.previous_hash block));
          ("hash", PStr (compute_hash block)) ].

(** [api_chain]. *)
Definition api_chain (blockchain : TicketBlockchain) : response :=
  (PList (map chain_entry (chain blockchain)), 200).

(** [demo_flow], without its prints: the calls on the ledger, in order,
    and as result the ticket it verifies and prints last. [block.index]
    on the [False] that [mine] returns for an empty pool raises
    [AttributeError]. *)
Definition demo_flow (uuid : string)
    (t_issue t_mine1 t_transfer t_mine2 t_redeem t_mine3 : float) (fuel : nat)
    (blockchain : TicketBlockchain)
    : outcome (option Ticket.t * TicketBlockchain) :=
  let '(ticket_id, blockchain) :=
    issue_ticket t_issue uuid "Alice" "Rock Concert" blockchain in
  match mine fuel t_mine1 blockchain with
  | Returns (MineBlock _, blockchain) =>
      let '(_, blockchain) :=
        transfer_ticket t_transfer ticket_id "Bob" blockchain in
      match mine fuel t_mine2 blockchain with
      | Returns (MineBlock _, blockchain) =>
          let '(_, blockchain) := redeem_ticket t_redeem ticket_id blockchain in
          match mine fuel t_mine3 blockchain with
          | Returns (MineBlock _, blockchain) =>
              Returns (verify_ticket ticket_id blockchain, blockchain)
          | Returns (MineFalse, _) => Raises
          | Raises => Raises
          | OutOfFuel => OutOfFuel
          end
      | Returns (MineFalse, _) => Raises
      | Raises => Raises
      | OutOfFuel => OutOfFuel
      end
  | Returns (MineFalse, _) => Raises
  | Raises => Raises
  | OutOfFuel => OutOfFuel
  end.

End Handlers.

(** ** More of the worked example *)

(** The genesis block of [ledger0]. *)
Definition genesis0 : Block.t :=
  Block.set_hash (compute_hash (Block_init (clock 1700000000) 0 [] "0"))
    (Block_init (clock 1700000000) 0 [] "0").

(** The three blocks of the run and the ledgers between them. *)
Definition demo_b1 : Block.t := mined_block ledger1 (clock 1700000089) genesis0 3.

Definition demo_l2 : TicketBlockchain :=
  snd (transfer_ticket (clock 1700000149) demo_id "Bob"
         (mined ledger1 (clock 1700000089) genesis0 3)).

Definition demo_b2 : Block.t := mined_block demo_l2 (clock 1700000157) demo_b1 2.

Definition demo_l3 : TicketBlockchain :=
  snd (redeem_ticket (clock 1700000217) demo_id
         (mined demo_l2 (clock 1700000157) demo_b1 2)).

Definition demo_b3 : Block.t := mined_block demo_l3 (clock 1700000395) demo_b2 1.

(** Request bodies. *)
Definition issue_data : gmap string string :=
  {[ "owner" := "Alice"; "event" := "Rock Concert" ]}.

Definition transfer_data : gmap string string :=
  {[ "ticket_id" := demo_id; "new_owner" := "Bob" ]}.

Definition unknown_data : gmap string string :=
  {[ "ticket_id" := "no-such-ticket"; "new_owner" := "Bob" ]}.

Definition redeem_data : gmap string string := {[ "ticket_id" := demo_id ]}.

Definition unknown_redeem_data : gmap string string :=
  {[ "ticket_id" := "no-such-ticket" ]}.

(** ** The digest is 64 lowercase hexadecimal characters *)

Lemma all_hex_app (s1 s2 : string) :
  all_hex (s1 +:+ s2) = all_hex s1 && all_hex s2.
Proof.
  induction s1 as [|c s1 IH]; simpl; [reflexivity|].
  rewrite IH. apply andb_assoc.
Qed.

Lemma length_app_string (s1 s2 : string) :
  String.length (s1 +:+ s2) = (String.length s1 + String.length s2)%nat.
Proof. induction s1 as [|c s1 IH]; simpl; [reflexivity | now rewrite IH]. Qed.

Lemma nibble_range (x : Z) : 0 <= Z.land x 0xF < 16.
Proof.
  change 0xF with (Z.ones 4). rewrite Z.land_ones by lia.
  apply Z.mod_pos_bound. lia.
Qed.

Lemma hex_char_is_hex (d : Z) :
  0 <= d < 16 -> is_hex_digit (Sha256.hex_char d) = true.
Proof.
  intros Hd.
  assert (Hcases : d = 0 \/ d = 1 \/ d = 2 \/ d = 3 \/ d = 4 \/ d = 5 \/ d = 6 \/
                   d = 7 \/ d = 8 \/ d = 9 \/ d = 10 \/ d = 11 \/ d = 12 \/
                   d = 13 \/ d = 14 \/ d = 15) by lia.
  repeat (destruct Hcases as [-> | Hcases]; [reflexivity|]).
  subst d. reflexivity.
Qed.

Lemma hex_of_hex (n : nat) (x : Z) :
  all_hex (Sha256.hex_of n x) = true /\ String.length (Sha256.hex_of n x) = n.
Proof.
  induction n as [|n [IH1 IH2]]; [split; reflexivity|].
  cbn [Sha256.hex_of all_hex String.length].
  rewrite hex_char_is_hex by apply nibble_range.
  rewrite IH1, IH2. split; reflexivity.
Qed.

Lemma hex_words_hex (ws : list Z) :
  all_hex (Sha256.hex_words ws) = true /\
  String.length (Sha256.hex_words ws) = (8 * length ws)%nat.
Proof.
  induction ws as [|w ws [IH1 IH2]]; [split; reflexivity|].
  unfold Sha256.hex_words in *. cbn [fold_right length].
  rewrite all_hex_app, length_app_string, IH1, IH2.
  destruct (hex_of_hex 8 w) as [-> ->]. split; [reflexivity | lia].
Qed.

Lemma blocks_length (n : nat) (h bs : list Z) :
  length h = 8%nat -> length (Sha256.blocks n h bs) = 8%nat.
Proof.
  revert h bs. induction n as [|n IH]; intros h bs Hh; [exact Hh|].
  destruct bs as [|b bs]; [exact Hh|].
  cbn [Sha256.blocks]. apply IH. reflexivity.
Qed.

Lemma digest_length (msg : list Z) : length (Sha256.digest msg) = 8%nat.
Proof. unfold Sha256.digest. now apply blocks_length. Qed.

Lemma sha256_hexdigest_hex (s : string) :
  all_hex (sha256_hexdigest s) = true /\
  String.length (sha256_hexdigest s) = 64%nat.
Proof.
  unfold sha256_hexdigest, Sha256.hexdigest.
  destruct (hex_words_hex (Sha256.digest (encode s))) as [H1 H2].
  rewrite digest_length in H2. split; [exact H1 | exact H2].
Qed.

(** ** [startswith] and the characters of the prefix *)

Lemma startswith_app (s prefix : string) :
  startswith s prefix = true <-> exists rest, s = prefix +:+ rest.
Proof.
  revert s. induction prefix as [|p prefix IH]; intros s; simpl.
  - split; [intros _; now exists s | reflexivity].
  - destruct s as [|c s].
    + split; [discriminate | intros [rest Hrest]; discriminate].
    + destruct (Ascii.eqb_spec p c) as [-> | Hne].
      * rewrite IH. split; intros [rest Hrest]; exists rest.
        -- now rewrite Hrest.
        -- now injection Hrest.
      * split; [discriminate | intros [rest Hrest]].
        injection Hrest as Hc _. congruence.
Qed.

Lemma startswith_zeros (s : string) :
  startswith s (str_mul "0" difficulty) = true ->
  forall k : nat, (Z.of_nat k < difficulty) -> String.get k s = Some "0"%char.
Proof.
  intros Hs k Hk. apply startswith_app in Hs as [rest ->].
  unfold difficulty in Hk.
  destruct k as [|[|k]]; [reflexivity | reflexivity | lia].
Qed.

(** ** Proof of work *)

Section Properties.

Context {FR : FloatRepr}.

Lemma set_nonce_same (b : Block.t) : Block.set_nonce (Block.nonce b) b = b.
Proof. destruct b; reflexivity. Qed.

Lemma set_nonce_twice (n m : Z) (b : Block.t) :
  Block.set_nonce n (Block.set_nonce m b) = Block.set_nonce n b.
Proof. reflexivity. Qed.

Lemma compute_hash_set_hash (h : string) (b : Block.t) :
  compute_hash (Block.set_hash h b) = compute_hash b.
Proof. reflexivity. Qed.

Lemma pow_loop_sound (fuel : nat) :
  forall (b : Block.t) (h : string) (b' : Block.t),
    pow_loop fuel b = Some (h, b') ->
    exists k : Z,
      0 <= k <= Z.of_nat fuel /\
      b' = Block.set_nonce (Block.nonce b + k) b /\
      h = compute_hash b' /\
      meets_difficulty b' = true /\
      forall j, 0 <= j < k ->
        meets_difficulty (Block.set_nonce (Block.nonce b + j) b) = false.
Proof.
  induction fuel as [|fuel IH]; intros b h b' Hrun; cbn [pow_loop] in Hrun;
    destruct (startswith (compute_hash b) (str_mul "0" difficulty)) eqn:Hb.
  - injection Hrun as <- <-. exists 0.
    rewrite Z.add_0_r, set_nonce_same.
    split; [lia|]. split; [reflexivity|]. split; [reflexivity|].
    split; [exact Hb|]. intros j Hj; lia.
  - discriminate.
  - injection Hrun as <- <-. exists 0.
    rewrite Z.add_0_r, set_nonce_same.
    split; [lia|]. split; [reflexivity|]. split; [reflexivity|].
    split; [exact Hb|]. intros j Hj; lia.
  - apply IH in Hrun as (k & Hk & Hb' & Hh & Hmeets & Hleast).
    cbn [Block.set_nonce Block.nonce] in Hb', Hleast.
    exists (k + 1). split; [lia|]. split; [|split; [exact Hh|split; [exact Hmeets|]]].
    + rewrite Hb'. unfold Block.set_nonce; cbn. f_equal. lia.
    + intros j Hj. destruct (Z.eq_dec j 0) as [-> | Hj0].
      * rewrite Z.add_0_r, set_nonce_same. exact Hb.
      * specialize (Hleast (j - 1) ltac:(lia)).
        replace (Block.nonce b + j) with (Block.nonce b + 1 + (j - 1)) by lia.
        exact Hleast.
Qed.

Lemma pow_loop_complete (fuel : nat) :
  forall (b : Block.t) (k : Z),
    0 <= k <= Z.of_nat fuel ->
    meets_difficulty (Block.set_nonce (Block.nonce b + k) b) = true ->
    exists h b', pow_loop fuel b = Some (h, b').
Proof.
  induction fuel as [|fuel IH]; intros b k Hk Hmeets; cbn [pow_loop];
    destruct (startswith (compute_hash b) (str_mul "0" difficulty)) eqn:Hb;
    eauto.
  - replace k with 0 in Hmeets by lia.
    rewrite Z.add_0_r, set_nonce_same in Hmeets.
    unfold meets_difficulty in Hmeets. congruence.
  - destruct (Z.eq_dec k 0) as [-> | Hk0].
    + rewrite Z.add_0_r, set_nonce_same in Hmeets.
      unfold meets_difficulty in Hmeets. congruence.
    + apply (IH _ (k - 1)); [lia|].
      cbn [Block.set_nonce Block.nonce].
      replace (Block.nonce b + 1 + (k - 1)) with (Block.nonce b + k) by lia.
      exact Hmeets.
Qed.

Lemma proof_of_work_sound (fuel : nat) (block : Block.t)
    (h : string) (block' : Block.t) :
  proof_of_work fuel block = Some (h, block') ->
  exists n : Z,
    0 <= n /\
    block' = Block.set_nonce n block /\
    meets_difficulty (Block.set_nonce n block) = true /\
    (forall m, 0 <= m < n ->
       meets_difficulty (Block.set_nonce m block) = false) /\
    h = compute_hash (Block.set_nonce n block).
Proof.
  unfold proof_of_work. intros Hrun.
  apply pow_loop_sound in Hrun as (k & Hk & Hb' & Hh & Hmeets & Hleast).
  cbn [Block.set_nonce Block.nonce] in Hb', Hleast.
  rewrite Z.add_0_l in Hb'. subst block'.
  exists k. split; [lia|]. split; [reflexivity|].
  split; [exact Hmeets|]. split; [|exact Hh].
  intros m Hm. exact (Hleast m Hm).
Qed.

Lemma proof_of_work_complete (fuel : nat) (block : Block.t) (n : Z) :
  0 <= n <= Z.of_nat fuel ->
  meets_difficulty (Block.set_nonce n block) = true ->
  exists h block', proof_of_work fuel block = Some (h, block').
Proof.
  intros Hn Hmeets. unfold proof_of_work.
  apply (pow_loop_complete fuel _ n Hn). exact Hmeets.
Qed.

(** C9. [proof_of_work] starts from nonce 0 whatever nonce the block has
    and goes up by one: when it returns, the block is the given one at
    the least [n >= 0] whose hash starts with [difficulty] zeros, and
    the string returned is the hash at that nonce. It does return, as
    soon as the fuel reaches such an [n]. *)
Theorem proof_of_work_least_nonce (fuel : nat) (block : Block.t) :
  (forall (h : string) (block' : Block.t),
     proof_of_work fuel block = Some (h, block') ->
     exists n : Z,
       0 <= n /\
       block' = Block.set_nonce n block /\
       Block.nonce block' = n /\
       meets_difficulty (Block.set_nonce n block) = true /\
       (forall m, 0 <= m < n ->
          meets_difficulty (Block.set_nonce m block) = false) /\
       h = compute_hash (Block.set_nonce n block)) /\
  (forall n : Z,
     0 <= n <= Z.of_nat fuel ->
     meets_difficulty (Block.set_nonce n block) = true ->
     exists h block', proof_of_work fuel block = Some (h, block')).
Proof.
  split.
  - intros h block' Hrun.
    apply proof_of_work_sound in Hrun as (n & Hn & -> & Hmeets & Hleast & Hh).
    exists n. split; [exact Hn|]. split; [reflexivity|]. split; [reflexivity|].
    split; [exact Hmeets|]. split; [exact Hleast | exact Hh].
  - intros n. apply proof_of_work_complete.
Qed.

(** ** The registry: [issue_ticket], [transfer_ticket], [redeem_ticket] *)

Lemma status_not_valid (t : Ticket.t) :
  Ticket.status t <> "valid" ->
  negb (String.eqb (Ticket.status t) "valid") = true.
Proof. intros Hne. apply String.eqb_neq in Hne. now rewrite Hne. Qed.

Lemma status_valid (t : Ticket.t) :
  Ticket.status t = "valid" ->
  negb (String.eqb (Ticket.status t) "valid") = false.
Proof. intros ->. reflexivity. Qed.

(** C3. On a ticket that is not in the registry, or whose status is not
    ["valid"], [transfer_ticket] and [redeem_ticket] return [False] and
    leave the ledger (registry, pending pool and chain) as it was. *)
Theorem transfer_redeem_rejected
    (self : TicketBlockchain) (now : float) (ticket_id new_owner : string) :
  tickets self !! ticket_id = None \/
  (exists t, tickets self !! ticket_id = Some t /\ Ticket.status t <> "valid") ->
  transfer_ticket now ticket_id new_owner self = (false, self) /\
  redeem_ticket now ticket_id self = (false, self).
Proof.
  intros [Hnone | (t & Hsome & Hstatus)];
    unfold transfer_ticket, redeem_ticket.
  - rewrite Hnone. split; reflexivity.
  - rewrite Hsome, (status_not_valid t Hstatus). split; reflexivity.
Qed.

(** C8. A transfer of a ["valid"] ticket returns [True], appends one
    ["transfer"] record that carries the owner before the call and the
    new owner, puts the new owner into the registry entry and keeps the
    entry's status and event; the other entries and the chain stay. *)
Theorem transfer_ticket_effect
    (self : TicketBlockchain) (now : float) (ticket_id new_owner : string)
    (t : Ticket.t) :
  tickets self !! ticket_id = Some t ->
  Ticket.status t = "valid" ->
  exists self',
    transfer_ticket now ticket_id new_owner self = (true, self') /\
    pending_transactions self' =
      pending_transactions self ++
        [TicketTransaction.mk "transfer" ticket_id (Ticket.owner t)
           None (Some new_owner) now] /\
    tickets self' !! ticket_id =
      Some (Ticket.mk new_owner (Ticket.status t) (Ticket.event t)) /\
    (forall other, other <> ticket_id ->
       tickets self' !! other = tickets self !! other) /\
    chain self' = chain self.
Proof.
  intros Hsome Hvalid. unfold transfer_ticket.
  rewrite Hsome, (status_valid t Hvalid). eexists. split; [reflexivity|].
  cbn. split; [reflexivity|]. split; [apply lookup_insert_eq|].
  split; [|reflexivity].
  intros other Hne. now apply lookup_insert_ne.
Qed.

(** C10. A transfer of a ["valid"] ticket to the owner it already has
    returns [True] and appends a ["transfer"] record all the same; the
    registry is as before. *)
Theorem transfer_to_same_owner
    (self : TicketBlockchain) (now : float) (ticket_id : string) (t : Ticket.t) :
  tickets self !! ticket_id = Some t ->
  Ticket.status t = "valid" ->
  exists self',
    transfer_ticket now ticket_id (Ticket.owner t) self = (true, self') /\
    pending_transactions self' =
      pending_transactions self ++
        [TicketTransaction.mk "transfer" ticket_id (Ticket.owner t)
           None (Some (Ticket.owner t)) now] /\
    tickets self' = tickets self.
Proof.
  intros Hsome Hvalid. unfold transfer_ticket.
  rewrite Hsome, (status_valid t Hvalid). eexists. split; [reflexivity|].
  cbn. split; [reflexivity|].
  apply insert_id. rewrite Hsome. destruct t; reflexivity.
Qed.

(** C6. [issue_ticket] returns for all arguments; it returns the
    identifier drawn, and [verify_ticket] on it right after gives the
    entry with the owner and event of the call and status ["valid"]. *)
Theorem issue_then_verify
    (self : TicketBlockchain) (now : float) (uuid owner event : string) :
  fst (issue_ticket now uuid owner event self) = uuid /\
  verify_ticket (fst (issue_ticket now uuid owner event self))
                (snd (issue_ticket now uuid owner event self))
    = Some (Ticket.mk owner "valid" event).
Proof.
  unfold issue_ticket, verify_ticket. cbn. split; [reflexivity|].
  now rewrite lookup_insert_eq.
Qed.







(** ** The chain: [mine] and the linkage of the blocks *)

Lemma mine_empty_pool (self : TicketBlockchain) (fuel : nat) (now : float) :
  pending_transactions self = [] ->
  mine fuel now self = Returns (MineFalse, self).
Proof. intros Hempty. unfold mine. now rewrite Hempty. Qed.

(** C7. With an empty pending pool [mine] returns [False], which is not
    a block, whatever the fuel, and the ledger is as before: the chain
    and its length, the pending pool and the registry. *)
Theorem mine_nothing_pending
    (self : TicketBlockchain) (fuel : nat) (now : float) :
  pending_transactions self = [] ->
  exists self' : TicketBlockchain,
    mine fuel now self = Returns (MineFalse, self') /\
    length (chain self') = length (chain self) /\
    chain self' = chain self /\
    pending_transactions self' = pending_transactions self /\
    tickets self' = tickets self /\
    self' = self.
Proof.
  intros Hempty. exists self. split; [now apply mine_empty_pool|].
  repeat split; reflexivity.
Qed.

(** What [mine] does when it returns on a pool that is not empty. *)
Lemma mine_returns (fuel : nat) (now : float) (self self' : TicketBlockchain)
    (r : mine_result) :
  pending_transactions self <> [] ->
  mine fuel now self = Returns (r, self') ->
  exists (prev : Block.t) (n : Z),
    last (chain self) = Some prev /\
    0 <= n /\
    let b := Block.mk (Z.of_nat (length (chain self)))
               (pending_transactions self) now (compute_hash prev) n None in
    meets_difficulty b = true /\
    r = MineBlock (Block.set_hash (compute_hash b) b) /\
    self' = Ledger (chain self ++ [Block.set_hash (compute_hash b) b]) []
              (tickets self).
Proof.
  unfold mine. intros Hpending Hrun.
  destruct (pending_transactions self) as [|tx txs] eqn:Hp; [congruence|].
  destruct (last (chain self)) as [prev|]; [|discriminate].
  destruct (proof_of_work _ _) as [[h b]|] eqn:Hpow; [|discriminate].
  injection Hrun as <- <-.
  apply proof_of_work_sound in Hpow as (n & Hn & Hb & Hmeets & _ & Hh).
  exists prev, n. split; [reflexivity|]. split; [exact Hn|].
  cbn [Block_init Block.set_nonce Block.index Block.transactions
       Block.timestamp Block.previous_hash Block.hash] in Hb, Hmeets, Hh.
  cbn zeta. subst b h. split; [exact Hmeets|]. split; reflexivity.
Qed.

Lemma chain_valid_init (now : float) : chain_valid (chain (init now)).
Proof.
  unfold init, create_genesis_block. cbn [chain app].
  split; [discriminate|]. split.
  - intros [|i] b Hb; [|discriminate]. injection Hb as <-.
    rewrite compute_hash_set_hash. split; reflexivity.
  - intros [|i] p b _ Hb; discriminate.
Qed.

Lemma chain_valid_snoc (c : list Block.t) (prev b : Block.t) :
  chain_valid c ->
  last c = Some prev ->
  Block.hash b = Some (compute_hash b) ->
  Block.index b = Z.of_nat (length c) ->
  Block.previous_hash b = compute_hash prev ->
  meets_difficulty b = true ->
  chain_valid (c ++ [b]).
Proof.
  intros (Hne & Hblocks & Hlinks) Hlast Hhash Hindex Hprev Hmeets.
  split; [intros Happ; now apply app_eq_nil in Happ as [_ ?]|]. split.
  - intros i x Hx. apply lookup_snoc_Some in Hx as [[_ Hx] | [-> <-]].
    + exact (Hblocks i x Hx).
    + split; [exact Hhash | exact Hindex].
  - intros i p x Hp Hx.
    apply lookup_snoc_Some in Hx as [[Hlt Hx] | [Hi <-]].
    + apply lookup_snoc_Some in Hp as [[_ Hp] | [-> _]]; [|lia].
      exact (Hlinks i p x Hp Hx).
    + apply lookup_snoc_Some in Hp as [[_ Hp] | [-> _]]; [|lia].
      rewrite last_lookup, <- Hi in Hlast. cbn in Hlast.
      rewrite Hp in Hlast. injection Hlast as ->.
      split; [exact Hprev | exact Hmeets].
Qed.

Lemma run_op_chain_valid (o : op) (self self' : TicketBlockchain) (v : value) :
  chain_valid (chain self) ->
  run_op o self = Returns (v, self') ->
  chain_valid (chain self').
Proof.
  intros Hvalid Hrun.
  destruct o as [now uuid owner event | now tid new_owner | now tid | tid | fuel now];
    cbn in Hrun.
  - now injection Hrun as _ <-.
  - unfold transfer_ticket in Hrun.
    destruct (tickets self !! tid); [destruct (negb _)|];
      now injection Hrun as _ <-.
  - unfold redeem_ticket in Hrun.
    destruct (tickets self !! tid); [destruct (negb _)|];
      now injection Hrun as _ <-.
  - now injection Hrun as _ <-.
  - destruct (mine fuel now self) as [[r s]| |] eqn:Hmine; try discriminate.
    injection Hrun as _ <-.
    destruct (pending_transactions self) as [|tx txs] eqn:Hp.
    + rewrite mine_empty_pool in Hmine by exact Hp.
      now injection Hmine as _ <-.
    + apply mine_returns in Hmine; [|rewrite Hp; discriminate].
      destruct Hmine as (prev & n & Hlast & _ & Hmeets & _ & ->). cbn [chain].
      apply (chain_valid_snoc _ prev); [exact Hvalid | exact Hlast | | | |].
      * rewrite compute_hash_set_hash. reflexivity.
      * reflexivity.
      * reflexivity.
      * unfold meets_difficulty. rewrite compute_hash_set_hash. exact Hmeets.
Qed.

Lemma reachable_chain_valid (self : TicketBlockchain) :
  reachable self -> chain_valid (chain self).
Proof.
  induction 1 as [now | o v self self' _ IH Hrun].
  - apply chain_valid_init.
  - exact (run_op_chain_valid o self self' v IH Hrun).
Qed.

(** What [run_ops] reaches from a reachable ledger is reachable. *)
Lemma run_ops_reachable (ops : list op) :
  forall self self' : TicketBlockchain,
    reachable self -> run_ops ops self = Returns self' -> reachable self'.
Proof.
  induction ops as [|o ops IH]; intros self self' Hreach Hrun; cbn in Hrun.
  - now injection Hrun as <-.
  - destruct (run_op o self) as [[v s]| |] eqn:Hop; try discriminate.
    exact (IH s self' (reachable_step o v self s Hreach Hop) Hrun).
Qed.

(** C1. In every ledger that a sequence of calls builds, each block of
    the chain stores the hash of its own fields and sits at its index,
    and each block after the genesis block holds in [previous_hash] the
    hash of the block just before it. *)
Theorem chain_hashes_and_links (self : TicketBlockchain) :
  reachable self ->
  forall (i : nat) (b : Block.t),
    chain self !! i = Some b ->
    Block.hash b = Some (compute_hash b) /\
    Block.index b = Z.of_nat i /\
    ((0 < i)%nat ->
     exists p : Block.t,
       chain self !! (i - 1)%nat = Some p /\
       Block.previous_hash b = compute_hash p).
Proof.
  intros Hreach i b Hb.
  destruct (reachable_chain_valid self Hreach) as (_ & Hblocks & Hlinks).
  destruct (Hblocks i b Hb) as [Hhash Hindex].
  split; [exact Hhash|]. split; [exact Hindex|].
  intros Hi. destruct i as [|i]; [lia|].
  replace (S i - 1)%nat with i by lia.
  destruct (chain self !! i) as [p|] eqn:Hp.
  - exists p. split; [reflexivity|]. exact (proj1 (Hlinks i p b Hp Hb)).
  - apply lookup_ge_None in Hp. apply lookup_lt_Some in Hb. lia.
Qed.

(** C4. In every reachable ledger the hash of each block after the
    genesis block, the blocks that [mine] appended, is 64 lowercase
    hexadecimal characters of which the first [difficulty], that is 2,
    are the character [0]. *)
Theorem mined_block_hash_zero_prefix (self : TicketBlockchain) :
  reachable self ->
  forall (i : nat) (b : Block.t),
    chain self !! i = Some b ->
    (0 < i)%nat ->
    all_hex (compute_hash b) = true /\
    String.length (compute_hash b) = 64%nat /\
    difficulty = 2 /\
    forall k : nat,
      Z.of_nat k < difficulty -> String.get k (compute_hash b) = Some "0"%char.
Proof.
  intros Hreach i b Hb Hi.
  destruct (reachable_chain_valid self Hreach) as (_ & _ & Hlinks).
  destruct (sha256_hexdigest_hex (block_string b)) as [Hhex Hlen].
  split; [exact Hhex|]. split; [exact Hlen|]. split; [reflexivity|].
  destruct i as [|i]; [lia|].
  destruct (chain self !! i) as [p|] eqn:Hp.
  - apply startswith_zeros. exact (proj2 (Hlinks i p b Hp Hb)).
  - apply lookup_ge_None in Hp. apply lookup_lt_Some in Hb. lia.
Qed.

(** C2. On a reachable ledger whose pending pool is not empty, [mine]
    does not raise; when it returns, it returns the block it appended:
    the chain is one block longer, the pending pool is empty, the block
    has the former chain length as index and the former pool, in order,
    as transactions. It returns as soon as the fuel reaches a nonce that
    meets the difficulty. *)
Theorem mine_appends_pending
    (self : TicketBlockchain) (now : float) :
  reachable self ->
  pending_transactions self <> [] ->
  (forall (fuel : nat) (r : mine_result) (self' : TicketBlockchain),
     mine fuel now self = Returns (r, self') ->
     exists b : Block.t,
       r = MineBlock b /\
       chain self' = chain self ++ [b] /\
       length (chain self') = S (length (chain self)) /\
       pending_transactions self' = [] /\
       Block.index b = Z.of_nat (length (chain self)) /\
       Block.transactions b = pending_transactions self /\
       tickets self' = tickets self) /\
  (forall fuel : nat, mine fuel now self <> Raises) /\
  (exists prev : Block.t,
     last (chain self) = Some prev /\
     forall (n : Z) (fuel : nat),
       0 <= n <= Z.of_nat fuel ->
       meets_difficulty
         (Block.mk (Z.of_nat (length (chain self))) (pending_transactions self)
            now (compute_hash prev) n None) = true ->
       exists (b : Block.t) (self' : TicketBlockchain),
         mine fuel now self = Returns (MineBlock b, self')).
Proof.
  intros Hreach Hpending.
  destruct (reachable_chain_valid self Hreach) as (Hne & _).
  apply last_is_Some in Hne as [prev Hlast].
  split; [|split].
  - intros fuel r self' Hrun.
    apply mine_returns in Hrun as (prev' & n & _ & _ & _ & -> & ->);
      [|exact Hpending].
    eexists. split; [reflexivity|]. cbn [chain pending_transactions tickets].
    split; [reflexivity|]. split; [rewrite length_app; cbn; lia|].
    repeat split; reflexivity.
  - intros fuel. unfold mine. rewrite Hlast.
    destruct (pending_transactions self); [discriminate|].
    destruct (proof_of_work _ _) as [[h b]|]; discriminate.
  - exists prev. split; [exact Hlast|]. intros n fuel Hn Hmeets.
    unfold mine. rewrite Hlast.
    destruct (pending_transactions self) as [|tx txs] eqn:Hp; [congruence|].
    destruct (proof_of_work_complete fuel
                (Block_init now (Z.of_nat (length (chain self))) (tx :: txs)
                   (compute_hash prev)) n Hn Hmeets) as (h & b & ->).
    eauto.
Qed.

End Properties.

(** ** The worked example, checked against the values CPython gives *)

Example sha256_constants :
  length Sha256.K = 64%nat /\
  head Sha256.K = Some 0x428a2f98 /\ last Sha256.K = Some 0xc67178f2 /\
  head Sha256.H0 = Some 0x6a09e667 /\ last Sha256.H0 = Some 0x5be0cd19.
Proof. repeat split; reflexivity. Qed.

Example sha256_empty :
  sha256_hexdigest EmptyString
  = "e3b0c44298fc1c149afbf4c8996fb92427ae41e4649b934ca495991b7852b855".
Proof. vm_compute. reflexivity. Qed.

Example sha256_two_blocks :
  sha256_hexdigest "abcdbcdecdefdefgefghfghighijhijkijkljklmklmnlmnomnopnopq"
  = "248d6a61d20638b8e5c026930c3e6039a33ce45964ff2167f6ecedd419db06c1".
Proof. vm_compute. reflexivity. Qed.

Example sha256_abc :
  sha256_hexdigest "abc"
  = "ba7816bf8f01cfea414140de5dae2223b00361a396177a9cb410ff61f20015ad".
Proof. vm_compute. reflexivity. Qed.

Example genesis_hash :
  map Block.hash (chain ledger0)
  = [Some "50d82b0d66572ea697cec74d73a843c77a715d6b2384ac18ed0e15346d603cb6"].
Proof. vm_compute. reflexivity. Qed.

Example proof_of_work_demo :
  proof_of_work 10 demo_block
  = Some ("001f9b2189a7adc6b0671638ffeb24c0003bee15e462eb8cbb4849d13fb00bcb",
          Block.set_nonce 3 demo_block).
Proof. vm_compute. reflexivity. Qed.

Lemma ledger1_reachable : reachable ledger1.
Proof.
  apply (run_ops_reachable (take 1 demo_ops) ledger0);
    [apply reachable_init | vm_compute; reflexivity].
Qed.

Lemma ledger2_run : run_ops (take 2 demo_ops) ledger0 = Returns ledger2.
Proof. vm_compute. reflexivity. Qed.

Lemma ledger2_reachable : reachable ledger2.
Proof.
  apply (run_ops_reachable (take 2 demo_ops) ledger0);
    [apply reachable_init | exact ledger2_run].
Qed.

(** The run of [demo_flow]: four blocks, each mined block linked to the
    one before and with two leading zeros, and the ticket redeemed in
    the hands of its second owner. *)
Example demo_flow_result :
  run_ops demo_ops ledger0 = Returns (after demo_ops ledger0) /\
  map (fun b => (Block.index b, Block.nonce b, Block.hash b))
      (chain (after demo_ops ledger0))
  = [ (0, 0, Some "50d82b0d66572ea697cec74d73a843c77a715d6b2384ac18ed0e15346d603cb6");
      (1, 3, Some "001f9b2189a7adc6b0671638ffeb24c0003bee15e462eb8cbb4849d13fb00bcb");
      (2, 2, Some "00290f23f5ebe7665aa7977976fc0d04b6d13d97ff5e20326f319455db2f569e");
      (3, 1, Some "00968b28c76a4b4557d6c809b722c6c7bf81a67f73f4ad6d3a9b045f9dfadbcb") ] /\
  pending_transactions (after demo_ops ledger0) = [] /\
  verify_ticket demo_id (after demo_ops ledger0)
  = Some (Ticket.mk "Bob" "redeemed" "Rock Concert").
Proof. vm_compute. repeat split; reflexivity. Qed.

(** A second [redeem_ticket] is refused and adds no record. *)
Example redeem_twice :
  redeem_ticket (clock 1700000300) demo_id ledger_redeemed
  = (false, ledger_redeemed).
Proof. vm_compute. reflexivity. Qed.

(** ** The theorems at the ledgers of the example *)

Lemma chain_hashes_and_links_witness :
  reachable ledger2 /\
  forall (i : nat) (b : Block.t),
    chain ledger2 !! i = Some b ->
    Block.hash b = Some (compute_hash b) /\
    Block.index b = Z.of_nat i /\
    ((0 < i)%nat ->
     exists p : Block.t,
       chain ledger2 !! (i - 1)%nat = Some p /\
       Block.previous_hash b = compute_hash p).
Proof.
  assert (Hreach : reachable ledger2).
  { apply (run_ops_reachable (take 2 demo_ops) ledger0);
      [apply reachable_init | vm_compute; reflexivity]. }
  split; [exact Hreach | exact (chain_hashes_and_links ledger2 Hreach)].
Defined.

Lemma mine_appends_pending_witness :
  reachable ledger1 /\
  pending_transactions ledger1 <> [] /\
  exists (b : Block.t) (self' : TicketBlockchain),
    mine 10 (clock 1700000089) ledger1 = Returns (MineBlock b, self') /\
    chain self' = chain ledger1 ++ [b] /\
    length (chain self') = S (length (chain ledger1)) /\
    pending_transactions self' = [] /\
    Block.index b = Z.of_nat (length (chain ledger1)) /\
    Block.transactions b = pending_transactions ledger1.
Proof.
  assert (Hreach : reachable ledger1).
  { apply (run_ops_reachable (take 1 demo_ops) ledger0);
      [apply reachable_init | vm_compute; reflexivity]. }
  assert (Hpending : pending_transactions ledger1 <> []) by discriminate.
  split; [exact Hreach|]. split; [exact Hpending|].
  destruct (mine_appends_pending ledger1 (clock 1700000089) Hreach Hpending)
    as (Hshape & _ & prev & Hlast & Hreturns).
  assert (Hprev : prev = hd prev (chain ledger1)).
  { vm_compute in Hlast. injection Hlast as <-. reflexivity. }
  destruct (Hreturns 3 10%nat ltac:(lia)) as (b & self' & Hrun).
  { rewrite Hprev. vm_compute. reflexivity. }
  exists b, self'. split; [exact Hrun|].
  destruct (Hshape 10%nat (MineBlock b) self' Hrun)
    as (b' & Hb & Hchain & Hlen & Hpool & Hindex & Htxs & _).
  injection Hb as <-. repeat split; assumption.
Defined.

Lemma transfer_redeem_rejected_witness :
  (tickets ledger_redeemed !! demo_id = None \/
   exists t, tickets ledger_redeemed !! demo_id = Some t /\
             Ticket.status t <> "valid") /\
  transfer_ticket (clock 1700000300) demo_id "Bob" ledger_redeemed
    = (false, ledger_redeemed) /\
  redeem_ticket (clock 1700000300) demo_id ledger_redeemed
    = (false, ledger_redeemed).
Proof.
  assert (Hpre : tickets ledger_redeemed !! demo_id = None \/
                 exists t, tickets ledger_redeemed !! demo_id = Some t /\
                           Ticket.status t <> "valid").
  { right. exists (Ticket.mk "Alice" "redeemed" "Rock Concert").
    split; [vm_compute; reflexivity | discriminate]. }
  split; [exact Hpre|].
  exact (transfer_redeem_rejected ledger_redeemed (clock 1700000300)
           demo_id "Bob" Hpre).
Defined.

Lemma mined_block_hash_zero_prefix_witness :
  reachable ledger2 /\
  forall (i : nat) (b : Block.t),
    chain ledger2 !! i = Some b ->
    (0 < i)%nat ->
    all_hex (compute_hash b) = true /\
    String.length (compute_hash b) = 64%nat /\
    difficulty = 2 /\
    forall k : nat,
      Z.of_nat k < difficulty -> String.get k (compute_hash b) = Some "0"%char.
Proof.
  assert (Hreach : reachable ledger2).
  { apply (run_ops_reachable (take 2 demo_ops) ledger0);
      [apply reachable_init | vm_compute; reflexivity]. }
  split; [exact Hreach | exact (mined_block_hash_zero_prefix ledger2 Hreach)].
Defined.



Lemma mine_nothing_pending_witness :
  pending_transactions ledger0 = [] /\
  exists self' : TicketBlockchain,
    mine 10 (clock 1700000089) ledger0 = Returns (MineFalse, self') /\
    length (chain self') = length (chain ledger0) /\
    chain self' = chain ledger0 /\
    pending_transactions self' = pending_transactions ledger0 /\
    tickets self' = tickets ledger0 /\
    self' = ledger0.
Proof.
  split; [reflexivity|].
  exact (mine_nothing_pending ledger0 10 (clock 1700000089) eq_refl).
Defined.

Lemma transfer_ticket_effect_witness :
  tickets ledger1 !! demo_id = Some (Ticket.mk "Alice" "valid" "Rock Concert") /\
  exists self',
    transfer_ticket (clock 1700000149) demo_id "Bob" ledger1 = (true, self') /\
    pending_transactions self' =
      pending_transactions ledger1 ++
        [TicketTransaction.mk "transfer" demo_id "Alice" None (Some "Bob")
           (clock 1700000149)] /\
    tickets self' !! demo_id = Some (Ticket.mk "Bob" "valid" "Rock Concert") /\
    (forall other, other <> demo_id ->
       tickets self' !! other = tickets ledger1 !! other) /\
    chain self' = chain ledger1.
Proof.
  assert (Hsome : tickets ledger1 !! demo_id
                  = Some (Ticket.mk "Alice" "valid" "Rock Concert"))
    by (vm_compute; reflexivity).
  split; [exact Hsome|].
  exact (transfer_ticket_effect ledger1 (clock 1700000149) demo_id "Bob"
           _ Hsome eq_refl).
Defined.

Lemma proof_of_work_least_nonce_witness :
  0 <= 3 <= Z.of_nat 10 /\
  meets_difficulty (Block.set_nonce 3 demo_block) = true /\
  exists h block', proof_of_work 10 demo_block = Some (h, block').
Proof.
  assert (Hn : 0 <= 3 <= Z.of_nat 10) by lia.
  assert (Hmeets : meets_difficulty (Block.set_nonce 3 demo_block) = true)
    by (vm_compute; reflexivity).
  split; [exact Hn|]. split; [exact Hmeets|].
  exact (proj2 (proof_of_work_least_nonce 10 demo_block) 3 Hn Hmeets).
Defined.

Lemma transfer_to_same_owner_witness :
  tickets ledger1 !! demo_id = Some (Ticket.mk "Alice" "valid" "Rock Concert") /\
  exists self',
    transfer_ticket (clock 1700000149) demo_id "Alice" ledger1 = (true, self') /\
    pending_transactions self' =
      pending_transactions ledger1 ++
        [TicketTransaction.mk "transfer" demo_id "Alice" None (Some "Alice")
           (clock 1700000149)] /\
    tickets self' = tickets ledger1.
Proof.
  assert (Hsome : tickets ledger1 !! demo_id
                  = Some (Ticket.mk "Alice" "valid" "Rock Concert"))
    by (vm_compute; reflexivity).
  split; [exact Hsome|].
  exact (transfer_to_same_owner ledger1 (clock 1700000149) demo_id
           _ Hsome eq_refl).
Defined.

(** ** What one call does to the ledger *)

Section Steps.

Context {FR : FloatRepr}.

Lemma least_nonce_unique (b : Block.t) (n n' : Z) :
  least_nonce b n -> least_nonce b n' -> n = n'.
Proof.
  intros (Hn & Hmeets & Hleast) (Hn' & Hmeets' & Hleast').
  destruct (Z.lt_trichotomy n n') as [Hlt | [Heq | Hgt]]; [|exact Heq|].
  - rewrite (Hleast' n) in Hmeets by lia. discriminate.
  - rewrite (Hleast n') in Hmeets' by lia. discriminate.
Qed.

(** [mine] on a pool that is not empty, when it returns. *)
Lemma mine_returns_least (fuel : nat) (now : float)
    (self self' : TicketBlockchain) (r : mine_result) :
  pending_transactions self <> [] ->
  mine fuel now self = Returns (r, self') ->
  exists (prev : Block.t) (n : Z),
    last (chain self) = Some prev /\
    least_nonce (Block.mk (Z.of_nat (length (chain self)))
                   (pending_transactions self) now (compute_hash prev) 0 None) n /\
    r = MineBlock (mined_block self now prev n) /\
    self' = Ledger (chain self ++ [mined_block self now prev n]) [] (tickets self).
Proof.
  unfold mine. intros Hpending Hrun.
  destruct (pending_transactions self) as [|tx txs] eqn:Hp; [congruence|].
  destruct (last (chain self)) as [prev|]; [|discriminate].
  destruct (proof_of_work _ _) as [[h b]|] eqn:Hpow; [|discriminate].
  injection Hrun as <- <-.
  apply proof_of_work_sound in Hpow as (n & Hn & Hb & Hmeets & Hleast & Hh).
  exists prev, n. split; [reflexivity|]. split; [split; [exact Hn | split; assumption]|].
  unfold mined_block. rewrite Hp. subst b h. split; reflexivity.
Qed.

(** [mine] returns the block at the least nonce, once the fuel reaches
    that nonce. *)
Lemma mine_least (fuel : nat) (now : float) (self : TicketBlockchain)
    (prev : Block.t) (n : Z) :
  pending_transactions self <> [] ->
  last (chain self) = Some prev ->
  least_nonce (Block.mk (Z.of_nat (length (chain self)))
                 (pending_transactions self) now (compute_hash prev) 0 None) n ->
  n <= Z.of_nat fuel ->
  mine fuel now self
  = Returns (MineBlock (mined_block self now prev n),
             Ledger (chain self ++ [mined_block self now prev n]) [] (tickets self)).
Proof.
  intros Hpending Hlast Hleast Hfuel.
  destruct (mine fuel now self) as [[r self']| |] eqn:Hrun.
  - apply mine_returns_least in Hrun as (prev' & n' & Hlast' & Hleast' & -> & ->);
      [|exact Hpending].
    rewrite Hlast in Hlast'. injection Hlast' as <-.
    now rewrite (least_nonce_unique _ n n' Hleast Hleast').
  - exfalso. unfold mine in Hrun. rewrite Hlast in Hrun.
    destruct (pending_transactions self); [congruence|].
    destruct (proof_of_work _ _) as [[h b]|]; discriminate.
  - exfalso. unfold mine in Hrun. rewrite Hlast in Hrun.
    destruct (pending_transactions self) as [|tx txs] eqn:Hp; [congruence|].
    destruct Hleast as (Hn & Hmeets & _).
    destruct (proof_of_work_complete fuel
                (Block_init now (Z.of_nat (length (chain self))) (tx :: txs)
                   (compute_hash prev)) n ltac:(lia) Hmeets) as (h & b & Hpow).
    rewrite Hpow in Hrun. discriminate.
Qed.

(** The effect of a returning call, case by case. *)
Lemma run_op_cases (o : op) (self self' : TicketBlockchain) (v : value) :
  run_op o self = Returns (v, self') ->
  self' = self \/
  (exists fuel now prev n,
     o = Mine fuel now /\
     pending_transactions self <> [] /\
     last (chain self) = Some prev /\
     least_nonce (Block.mk (Z.of_nat (length (chain self)))
                    (pending_transactions self) now (compute_hash prev) 0 None) n /\
     v = VMine (MineBlock (mined_block self now prev n)) /\
     self' = Ledger (chain self ++ [mined_block self now prev n]) []
               (tickets self)) \/
  (exists tx,
     self' = Ledger (chain self) (pending_transactions self ++ [tx])
               (apply_record (tickets self) tx) /\
     ((exists now uuid owner event,
         o = Issue now uuid owner event /\
         tx = TicketTransaction.mk "issue" uuid owner (Some event) None now) \/
      (exists now ticket_id new_owner t,
         o = Transfer now ticket_id new_owner /\
         tickets self !! ticket_id = Some t /\ Ticket.status t = "valid" /\
         tx = TicketTransaction.mk "transfer" ticket_id (Ticket.owner t)
                None (Some new_owner) now) \/
      (exists now ticket_id t,
         o = Redeem now ticket_id /\
         tickets self !! ticket_id = Some t /\ Ticket.status t = "valid" /\
         tx = TicketTransaction.mk "redeem" ticket_id (Ticket.owner t)
                None None now))).
Proof.
  intros Hrun.
  destruct o as [now uuid owner event | now tid new_owner | now tid | tid | fuel now];
    cbn in Hrun.
  - injection Hrun as _ <-. right; right.
    exists (TicketTransaction.mk "issue" uuid owner (Some event) None now).
    split; [reflexivity|]. left.
    exists now, uuid, owner, event. split; reflexivity.
  - unfold transfer_ticket in Hrun.
    destruct (tickets self !! tid) as [t|] eqn:Ht;
      [|injection Hrun as _ <-; now left].
    destruct (String.eqb (Ticket.status t) "valid") eqn:Hvalid; cbn in Hrun;
      [|injection Hrun as _ <-; now left].
    apply String.eqb_eq in Hvalid. injection Hrun as _ <-.
    right; right.
    exists (TicketTransaction.mk "transfer" tid (Ticket.owner t) None
              (Some new_owner) now).
    split; [|right; left; exists now, tid, new_owner, t; repeat split; assumption].
    unfold apply_record, add_transaction. cbn.
    now rewrite (alter_alt_Some _ _ _ t Ht).
  - unfold redeem_ticket in Hrun.
    destruct (tickets self !! tid) as [t|] eqn:Ht;
      [|injection Hrun as _ <-; now left].
    destruct (String.eqb (Ticket.status t) "valid") eqn:Hvalid; cbn in Hrun;
      [|injection Hrun as _ <-; now left].
    apply String.eqb_eq in Hvalid. injection Hrun as _ <-.
    right; right.
    exists (TicketTransaction.mk "redeem" tid (Ticket.owner t) None None now).
    split; [|right; right; exists now, tid, t; repeat split; assumption].
    unfold apply_record, add_transaction. cbn.
    now rewrite (alter_alt_Some _ _ _ t Ht).
  - injection Hrun as _ <-. now left.
  - destruct (mine fuel now self) as [[r s]| |] eqn:Hmine; try discriminate.
    injection Hrun as <- <-.
    destruct (pending_transactions self) as [|tx txs] eqn:Hp.
    + rewrite mine_empty_pool in Hmine by exact Hp.
      injection Hmine as _ <-. now left.
    + apply mine_returns_least in Hmine as (prev & n & Hlast & Hleast & -> & ->);
        [|rewrite Hp; discriminate].
      rewrite <- Hp. right; left. exists fuel, now, prev, n.
      split; [reflexivity|]. split; [rewrite Hp; discriminate|].
      split; [exact Hlast|].
      split; [exact Hleast|]. split; reflexivity.
Qed.


(** ** More on the registry *)

(** X1. A redeem of a ["valid"] ticket returns [True], appends one
    ["redeem"] record carrying the owner, sets the status of the entry to
    ["redeemed"] and keeps its owner and event; the other entries and
    the chain stay. *)
Theorem redeem_ticket_effect
    (self : TicketBlockchain) (now : float) (ticket_id : string) (t : Ticket.t) :
  tickets self !! ticket_id = Some t ->
  Ticket.status t = "valid" ->
  exists self',
    redeem_ticket now ticket_id self = (true, self') /\
    pending_transactions self' =
      pending_transactions self ++
        [TicketTransaction.mk "redeem" ticket_id (Ticket.owner t) None None now] /\
    tickets self' !! ticket_id =
      Some (Ticket.mk (Ticket.owner t) "redeemed" (Ticket.event t)) /\
    (forall other, other <> ticket_id ->
       tickets self' !! other = tickets self !! other) /\
    chain self' = chain self.
Proof.
  intros Hsome Hvalid. unfold redeem_ticket.
  rewrite Hsome, (status_valid t Hvalid). eexists. split; [reflexivity|].
  cbn. split; [reflexivity|]. split; [apply lookup_insert_eq|].
  split; [|reflexivity].
  intros other Hne. now apply lookup_insert_ne.
Qed.

(** X3. [issue_ticket] with an identifier that is not yet a key appends
    one ["issue"] record, adds one entry to the registry and keeps every
    entry that was there; the chain stays. *)
Theorem issue_ticket_effect
    (self : TicketBlockchain) (now : float) (uuid owner event : string) :
  tickets self !! uuid = None ->
  pending_transactions (snd (issue_ticket now uuid owner event self)) =
    pending_transactions self ++
      [TicketTransaction.mk "issue" uuid owner (Some event) None now] /\
  size (tickets (snd (issue_ticket now uuid owner event self)))
    = S (size (tickets self)) /\
  (forall id t, tickets self !! id = Some t ->
     tickets (snd (issue_ticket now uuid owner event self)) !! id = Some t) /\
  chain (snd (issue_ticket now uuid owner event self)) = chain self.
Proof.
  intros Hfresh. unfold issue_ticket. cbn.
  split; [reflexivity|]. split; [now apply map_size_insert_None|].
  split; [|reflexivity].
  intros id t Hid. rewrite lookup_insert_ne; [exact Hid | congruence].
Qed.

(** How the entry of a ticket moves in one call. *)
Lemma run_op_ticket_step (o : op) (self self' : TicketBlockchain) (v : value)
    (ticket_id : string) (t : Ticket.t) :
  tickets self !! ticket_id = Some t ->
  fresh_uuid o self ->
  run_op o self = Returns (v, self') ->
  tickets self' !! ticket_id = Some t \/
  (Ticket.status t = "valid" /\
   exists now new_owner,
     o = Transfer now ticket_id new_owner /\
     tickets self' !! ticket_id = Some (Ticket.set_owner new_owner t)) \/
  (Ticket.status t = "valid" /\
   exists now,
     o = Redeem now ticket_id /\
     tickets self' !! ticket_id = Some (Ticket.set_status "redeemed" t)).
Proof.
  intros Hsome Hfresh Hrun.
  apply run_op_cases in Hrun
    as [-> | [(fuel & now & prev & n & _ & _ & _ & _ & _ & ->)
           | (tx & -> & [Hissue | [Htransfer | Hredeem]])]].
  - now left.
  - now left.
  - destruct Hissue as (now & uuid & owner & event & -> & ->).
    left. cbn in Hfresh |- *. unfold apply_record. cbn.
    rewrite lookup_insert_ne; [exact Hsome | congruence].
  - destruct Htransfer as (now & tid & new_owner & t0 & -> & Ht0 & Hvalid & ->).
    unfold apply_record. cbn.
    destruct (decide (tid = ticket_id)) as [-> | Hne].
    + rewrite Hsome in Ht0. injection Ht0 as <-.
      right; left. split; [exact Hvalid|]. exists now, new_owner.
      split; [reflexivity|]. now rewrite lookup_alter_eq, Hsome.
    + left. now rewrite lookup_alter_ne.
  - destruct Hredeem as (now & tid & t0 & -> & Ht0 & Hvalid & ->).
    unfold apply_record. cbn.
    destruct (decide (tid = ticket_id)) as [-> | Hne].
    + rewrite Hsome in Ht0. injection Ht0 as <-.
      right; right. split; [exact Hvalid|]. exists now.
      split; [reflexivity|]. now rewrite lookup_alter_eq, Hsome.
    + left. now rewrite lookup_alter_ne.
Qed.

(** X4. The life of a ticket: through one returning call its entry
    stays in the registry and either is as it was, or, its status being
    ["valid"], the call is a [transfer_ticket] on it and only the owner
    is replaced, or the call is a [redeem_ticket] on it and only the
    status is set, to ["redeemed"]. The identifier that [issue_ticket]
    draws is one that is not in use. *)
Theorem ticket_state_machine (o : op) (self self' : TicketBlockchain) (v : value)
    (ticket_id : string) (t : Ticket.t) :
  tickets self !! ticket_id = Some t ->
  fresh_uuid o self ->
  run_op o self = Returns (v, self') ->
  exists t',
    tickets self' !! ticket_id = Some t' /\
    (t' = t \/
     (Ticket.status t = "valid" /\
      exists now new_owner,
        o = Transfer now ticket_id new_owner /\
        t' = Ticket.mk new_owner (Ticket.status t) (Ticket.event t)) \/
     (Ticket.status t = "valid" /\
      exists now,
        o = Redeem now ticket_id /\
        t' = Ticket.mk (Ticket.owner t) "redeemed" (Ticket.event t))).
Proof.
  intros Hsome Hfresh Hrun.
  destruct (run_op_ticket_step o self self' v ticket_id t Hsome Hfresh Hrun)
    as [Hs | [(Hvalid & now & new_owner & Ho & Hs) | (Hvalid & now & Ho & Hs)]].
  - exists t. split; [exact Hs | now left].
  - exists (Ticket.set_owner new_owner t). split; [exact Hs|].
    right; left. split; [exact Hvalid|]. exists now, new_owner.
    split; [exact Ho | reflexivity].
  - exists (Ticket.set_status "redeemed" t). split; [exact Hs|].
    right; right. split; [exact Hvalid|]. exists now.
    split; [exact Ho | reflexivity].
Qed.

(** X5. Through every sequence of returning calls a ticket keeps the
    event it was issued for. *)
Theorem ticket_event_kept (ops : list op) :
  forall (self self' : TicketBlockchain) (ticket_id : string) (t : Ticket.t),
    tickets self !! ticket_id = Some t ->
    fresh_uuids ops self ->
    run_ops ops self = Returns self' ->
    exists t',
      tickets self' !! ticket_id = Some t' /\ Ticket.event t' = Ticket.event t.
Proof.
  induction ops as [|o ops IH]; intros self self' ticket_id t Hsome Hfresh Hrun;
    cbn in Hrun, Hfresh.
  - injection Hrun as <-. eauto.
  - destruct Hfresh as [Hfresh Hrest].
    destruct (run_op o self) as [[v s]| |] eqn:Hop; try discriminate.
    destruct (run_op_ticket_step o self s v ticket_id t Hsome Hfresh Hop)
      as [Hs | [(_ & now & new_owner & _ & Hs) | (_ & now & _ & Hs)]];
      destruct (IH s self' ticket_id _ Hs Hrest Hrun) as (t' & Hsome' & Hevent);
      exists t'; split; try exact Hsome'; exact Hevent.
Qed.

(** X6. A redeemed ticket is frozen: through every sequence of returning
    calls its entry, owner included, is the same. *)
Theorem redeemed_ticket_frozen (ops : list op) :
  forall (self self' : TicketBlockchain) (ticket_id : string) (t : Ticket.t),
    tickets self !! ticket_id = Some t ->
    Ticket.status t = "redeemed" ->
    fresh_uuids ops self ->
    run_ops ops self = Returns self' ->
    tickets self' !! ticket_id = Some t.
Proof.
  induction ops as [|o ops IH];
    intros self self' ticket_id t Hsome Hredeemed Hfresh Hrun;
    cbn in Hrun, Hfresh.
  - now injection Hrun as <-.
  - destruct Hfresh as [Hfresh Hrest].
    destruct (run_op o self) as [[v s]| |] eqn:Hop; try discriminate.
    destruct (run_op_ticket_step o self s v ticket_id t Hsome Hfresh Hop)
      as [Hs | [(Hvalid & _) | (Hvalid & _)]]; try congruence.
    exact (IH s self' ticket_id t Hs Hredeemed Hrest Hrun).
Qed.

(** On a ledger where the ticket is ["redeemed"], and after every
    sequence of returning calls from it, [redeem_ticket] and
    [transfer_ticket] on the ticket are refused. *)
Lemma run_ops_redeemed_refused (ops : list op) :
  forall (self self' : TicketBlockchain) (ticket_id : string) (t : Ticket.t),
    tickets self !! ticket_id = Some t ->
    Ticket.status t = "redeemed" ->
    fresh_uuids ops self ->
    run_ops ops self = Returns self' ->
    forall (later : float) (new_owner : string),
      redeem_ticket later ticket_id self' = (false, self') /\
      transfer_ticket later ticket_id new_owner self' = (false, self').
Proof.
  induction ops as [|o ops IH];
    intros self self' ticket_id t Hsome Hredeemed Hfresh Hrun;
    cbn in Hrun, Hfresh.
  - injection Hrun as <-. intros later new_owner.
    unfold redeem_ticket, transfer_ticket. rewrite Hsome, Hredeemed.
    split; reflexivity.
  - destruct Hfresh as [Hfresh Hrest].
    destruct (run_op o self) as [[v s]| |] eqn:Hop; try discriminate.
    destruct (run_op_ticket_step o self s v ticket_id t Hsome Hfresh Hop)
      as [Hs | [(Hvalid & _) | (Hvalid & _)]]; try congruence.
    exact (IH s self' ticket_id t Hs Hredeemed Hrest Hrun).
Qed.

(** X2. Once a ticket is redeemed, every later [redeem_ticket] and
    [transfer_ticket] on it, right after the redeem or after any
    sequence of returning calls in between (their issues drawing
    identifiers that are not in use), returns [False] and leaves the
    ledger as it is: no second record for it reaches the pool. *)
Theorem redeemed_ticket_refused
    (self : TicketBlockchain) (now : float) (ticket_id : string) (t : Ticket.t) :
  tickets self !! ticket_id = Some t ->
  Ticket.status t = "valid" ->
  fst (redeem_ticket now ticket_id self) = true /\
  forall (ops : list op) (self' : TicketBlockchain),
    fresh_uuids ops (snd (redeem_ticket now ticket_id self)) ->
    run_ops ops (snd (redeem_ticket now ticket_id self)) = Returns self' ->
    forall (later : float) (new_owner : string),
      redeem_ticket later ticket_id self' = (false, self') /\
      transfer_ticket later ticket_id new_owner self' = (false, self').
Proof.
  intros Hsome Hvalid.
  assert (Hres : redeem_ticket now ticket_id self
                 = (true,
                    Ledger (chain self)
                      (pending_transactions self ++
                         [TicketTransaction.mk "redeem" ticket_id (Ticket.owner t)
                            None None now])
                      (<[ticket_id := Ticket.set_status "redeemed" t]>
                         (tickets self)))).
  { unfold redeem_ticket. now rewrite Hsome, (status_valid t Hvalid). }
  rewrite Hres. cbn [fst snd].
  split; [reflexivity|]. intros ops self' Hfresh Hrun.
  refine (run_ops_redeemed_refused ops _ self' ticket_id
            (Ticket.set_status "redeemed" t) _ _ Hfresh Hrun).
  - cbn [tickets]. apply lookup_insert_eq.
  - reflexivity.
Qed.

(** ** More on the chain *)

(** The chain after a returning call: the same, or one block longer. *)
Lemma run_op_chain (o : op) (self self' : TicketBlockchain) (v : value) :
  run_op o self = Returns (v, self') ->
  chain self' = chain self \/
  exists now prev n,
    pending_transactions self <> [] /\
    last (chain self) = Some prev /\
    least_nonce (Block.mk (Z.of_nat (length (chain self)))
                   (pending_transactions self) now (compute_hash prev) 0 None) n /\
    chain self' = chain self ++ [mined_block self now prev n].
Proof.
  intros Hrun.
  apply run_op_cases in Hrun
    as [-> | [(fuel & now & prev & n & _ & Hp & Hlast & Hleast & _ & ->)
           | (tx & -> & _)]].
  - now left.
  - right. exists now, prev, n.
    split; [exact Hp|]. split; [exact Hlast|]. split; [exact Hleast | reflexivity].
  - now left.
Qed.

(** X7. The chain only grows at its end: through every sequence of
    returning calls each block stays at its place unchanged, and the
    chain gains at most one block per call. *)
Theorem chain_append_only (ops : list op) :
  forall self self' : TicketBlockchain,
    run_ops ops self = Returns self' ->
    chain self `prefix_of` chain self' /\
    (forall (i : nat) (b : Block.t),
       chain self !! i = Some b -> chain self' !! i = Some b) /\
    (length (chain self') <= length (chain self) + length ops)%nat.
Proof.
  induction ops as [|o ops IH]; intros self self' Hrun; cbn in Hrun.
  - injection Hrun as <-. split; [reflexivity|]. split; [auto | cbn; lia].
  - destruct (run_op o self) as [[v s]| |] eqn:Hop; try discriminate.
    destruct (IH s self' Hrun) as (Hprefix & _ & Hlen).
    assert (Hstep : chain self `prefix_of` chain s /\
                    (length (chain s) <= S (length (chain self)))%nat).
    { apply run_op_chain in Hop as [-> | (now & prev & n & _ & _ & _ & ->)].
      - split; [reflexivity | lia].
      - split; [now apply prefix_app_r | rewrite length_app; cbn; lia]. }
    destruct Hstep as [Hstep Hlen1].
    assert (Hall : chain self `prefix_of` chain self') by (etrans; eassumption).
    split; [exact Hall|]. split.
    + intros i b Hb. exact (prefix_lookup_Some _ _ i b Hb Hall).
    + cbn [length]. lia.
Qed.

Lemma set_nonce_set_hash (m : Z) (h : string) (b : Block.t) :
  Block.set_nonce m (Block.set_hash h b) = Block.set_hash h (Block.set_nonce m b).
Proof. reflexivity. Qed.

Lemma mined_block_hash (self : TicketBlockchain) (now : float) (prev : Block.t)
    (n : Z) :
  compute_hash (mined_block self now prev n)
  = compute_hash
      (Block.set_nonce n
         (Block.mk (Z.of_nat (length (chain self))) (pending_transactions self)
            now (compute_hash prev) 0 None)).
Proof.
  unfold mined_block. cbn zeta. rewrite compute_hash_set_hash. f_equal.
Qed.

Lemma meets_mined (self : TicketBlockchain) (now : float) (prev : Block.t)
    (n m : Z) :
  meets_difficulty (Block.set_nonce m (mined_block self now prev n))
  = meets_difficulty
      (Block.set_nonce m
         (Block.mk (Z.of_nat (length (chain self))) (pending_transactions self)
            now (compute_hash prev) 0 None)).
Proof.
  unfold meets_difficulty, mined_block. cbn zeta.
  rewrite set_nonce_set_hash, compute_hash_set_hash.
  do 2 f_equal.
Qed.

(** The first block is the genesis block, and the later blocks are as
    [mine] builds them. *)
Lemma reachable_blocks (self : TicketBlockchain) :
  reachable self ->
  (exists g : Block.t,
     chain self !! 0%nat = Some g /\
     Block.index g = 0 /\ Block.transactions g = [] /\
     Block.previous_hash g = "0" /\ Block.nonce g = 0) /\
  (forall (i : nat) (b : Block.t),
     chain self !! S i = Some b ->
     Block.transactions b <> [] /\ least_nonce b (Block.nonce b)).
Proof.
  induction 1 as [now | o v self self' _ [(g & Hg & Hshape) Hmined] Hrun].
  - split.
    + eexists. split; [reflexivity|]. repeat split; reflexivity.
    + intros i b Hb. discriminate.
  - apply run_op_chain in Hrun
      as [-> | (now & prev & n & Hp & _ & Hleast & ->)].
    + split; [exists g; split; assumption | exact Hmined].
    + split.
      * exists g. split; [|exact Hshape].
        apply lookup_app_l_Some. exact Hg.
      * intros i b Hb.
        apply lookup_snoc_Some in Hb as [[_ Hb] | [_ <-]];
          [exact (Hmined i b Hb)|].
        split; [exact Hp|].
        destruct Hleast as (Hn & Hmeets & Hbelow). unfold least_nonce.
        change (Block.nonce (mined_block self now prev n)) with n.
        split; [exact Hn|]. split.
        -- rewrite meets_mined. exact Hmeets.
        -- intros m Hm. rewrite meets_mined. exact (Hbelow m Hm).
Qed.

(** X8. In every reachable ledger the first block is the genesis block
    as [create_genesis_block] made it: index 0, no transactions,
    [previous_hash] the string [0], nonce 0. *)
Theorem genesis_block_stays (self : TicketBlockchain) :
  reachable self ->
  exists g : Block.t,
    chain self !! 0%nat = Some g /\
    Block.index g = 0 /\ Block.transactions g = [] /\
    Block.previous_hash g = "0" /\ Block.nonce g = 0 /\
    Block.hash g = Some (compute_hash g).
Proof.
  intros Hreach.
  destruct (reachable_blocks self Hreach) as [(g & Hg & Hi & Ht & Hp & Hn) _].
  destruct (reachable_chain_valid self Hreach) as (_ & Hblocks & _).
  exists g. repeat split; try assumption. exact (proj1 (Hblocks _ _ Hg)).
Qed.

(** X9. In every reachable ledger each block after the genesis block
    holds at least one record, and its nonce is the least one at which
    the hash of its fields starts with [difficulty] zeros. *)
Theorem mined_blocks_least_nonce (self : TicketBlockchain) :
  reachable self ->
  forall (i : nat) (b : Block.t),
    chain self !! i = Some b ->
    (0 < i)%nat ->
    Block.transactions b <> [] /\
    0 <= Block.nonce b /\
    meets_difficulty b = true /\
    (forall m, 0 <= m < Block.nonce b ->
       meets_difficulty (Block.set_nonce m b) = false).
Proof.
  intros Hreach i b Hb Hi. destruct i as [|i]; [lia|].
  destruct (reachable_blocks self Hreach) as [_ Hmined].
  destruct (Hmined i b Hb) as (Htxs & Hn & Hmeets & Hbelow).
  rewrite set_nonce_same in Hmeets. repeat split; assumption.
Qed.

(** ** The records and the registry *)

Lemma history_snoc_block (c : list Block.t) (b : Block.t)
    (reg : gmap string Ticket.t) :
  history (Ledger (c ++ [b]) [] reg)
  = concat (map Block.transactions c) ++ Block.transactions b.
Proof.
  unfold history. cbn [chain pending_transactions].
  rewrite map_app, concat_app. cbn. now rewrite !app_nil_r.
Qed.

(** The records after a returning call: the same, or one more at the
    end, which the registry has taken in. *)
Lemma run_op_history (o : op) (self self' : TicketBlockchain) (v : value) :
  run_op o self = Returns (v, self') ->
  (history self' = history self /\ tickets self' = tickets self) \/
  exists tx,
    history self' = history self ++ [tx] /\
    tickets self' = apply_record (tickets self) tx /\
    ((exists now uuid owner event,
        tx = TicketTransaction.mk "issue" uuid owner (Some event) None now) \/
     (exists now ticket_id new_owner t,
        tickets self !! ticket_id = Some t /\ Ticket.status t = "valid" /\
        tx = TicketTransaction.mk "transfer" ticket_id (Ticket.owner t)
               None (Some new_owner) now) \/
     (exists now ticket_id t,
        tickets self !! ticket_id = Some t /\ Ticket.status t = "valid" /\
        tx = TicketTransaction.mk "redeem" ticket_id (Ticket.owner t)
               None None now)).
Proof.
  intros Hrun.
  apply run_op_cases in Hrun
    as [-> | [(fuel & now & prev & n & _ & _ & _ & _ & _ & ->)
           | (tx & -> & Hkind)]].
  - left. split; reflexivity.
  - left. split; [|reflexivity]. rewrite history_snoc_block. reflexivity.
  - right. exists tx. split; [|split; [reflexivity|]].
    + unfold history. cbn. now rewrite app_assoc.
    + destruct Hkind as [(now & uuid & owner & event & _ & ->)
                        | [(now & tid & new_owner & t & _ & Ht & Hv & ->)
                          | (now & tid & t & _ & Ht & Hv & ->)]].
      * left. eauto.
      * right; left. exists now, tid, new_owner, t. auto.
      * right; right. exists now, tid, t. auto.
Qed.

(** X10. [mine] loses no record and adds none: the records of the
    blocks followed by the pending pool are the same list, in the same
    order, before and after, whatever [mine] returns; the registry is
    untouched. *)
Theorem mine_keeps_records (fuel : nat) (now : float)
    (self self' : TicketBlockchain) (r : mine_result) :
  mine fuel now self = Returns (r, self') ->
  history self' = history self /\ tickets self' = tickets self.
Proof.
  intros Hrun.
  destruct (pending_transactions self) as [|tx txs] eqn:Hp.
  - rewrite mine_empty_pool in Hrun by exact Hp.
    injection Hrun as _ <-. split; reflexivity.
  - apply mine_returns_least in Hrun as (prev & n & _ & _ & _ & ->);
      [|rewrite Hp; discriminate].
    split; [|reflexivity]. rewrite history_snoc_block. reflexivity.
Qed.

(** X11. Every returning call either leaves the records and the
    registry as they are, or appends exactly one record, an ["issue"],
    a ["transfer"] or a ["redeem"] of a ticket that was ["valid"], and
    writes that record's effect into the registry in the same call. *)
Theorem call_appends_one_record (o : op) (self self' : TicketBlockchain)
    (v : value) :
  run_op o self = Returns (v, self') ->
  (history self' = history self /\ tickets self' = tickets self) \/
  exists tx,
    history self' = history self ++ [tx] /\
    tickets self' = apply_record (tickets self) tx /\
    is_Some (tickets self' !! TicketTransaction.ticket_id tx) /\
    (TicketTransaction.tx_type tx = "issue" \/
     (exists t, tickets self !! TicketTransaction.ticket_id tx = Some t /\
                Ticket.status t = "valid" /\
                TicketTransaction.owner tx = Ticket.owner t /\
                (TicketTransaction.tx_type tx = "transfer" \/
                 TicketTransaction.tx_type tx = "redeem"))).
Proof.
  intros Hrun.
  apply run_op_history in Hrun as [Hsame | (tx & Hhist & Hreg & Hkind)];
    [now left|].
  right. exists tx. split; [exact Hhist|]. split; [exact Hreg|]. rewrite Hreg.
  destruct Hkind as [(now & uuid & owner & event & ->)
                    | [(now & tid & new_owner & t & Ht & Hv & ->)
                      | (now & tid & t & Ht & Hv & ->)]];
    unfold apply_record; cbn.
  - split; [rewrite lookup_insert_eq; eauto | now left].
  - split; [rewrite lookup_alter_eq, Ht; cbn; eauto|].
    right. exists t. auto.
  - split; [rewrite lookup_alter_eq, Ht; cbn; eauto|].
    right. exists t. auto.
Qed.

Lemma replay_snoc (txs : list TicketTransaction.t) (tx : TicketTransaction.t) :
  replay (txs ++ [tx]) = apply_record (replay txs) tx.
Proof. unfold replay. apply foldl_snoc. Qed.

(** X12. In every reachable ledger the registry is the replay of the
    records: starting from the empty registry and taking the records of
    the blocks and then of the pending pool in order, an ["issue"]
    stores a valid entry, a ["transfer"] sets the owner to [new_owner],
    a ["redeem"] sets the status to ["redeemed"]. *)
Theorem registry_is_replay (self : TicketBlockchain) :
  reachable self -> tickets self = replay (history self).
Proof.
  induction 1 as [now | o v self self' _ IH Hrun].
  - reflexivity.
  - apply run_op_history in Hrun as [[-> ->] | (tx & -> & -> & _)].
    + exact IH.
    + now rewrite replay_snoc, IH.
Qed.

(** X13. In every reachable ledger the records and the registry name
    the same tickets: the ticket of every record is in the registry, and
    every ticket of the registry has an ["issue"] record; and the status
    of every ticket is ["valid"] or ["redeemed"]. *)
Theorem records_and_registry_agree (self : TicketBlockchain) :
  reachable self ->
  (forall tx, tx ∈ history self ->
     is_Some (tickets self !! TicketTransaction.ticket_id tx)) /\
  (forall id t, tickets self !! id = Some t ->
     (Ticket.status t = "valid" \/ Ticket.status t = "redeemed") /\
     exists tx, tx ∈ history self /\
                TicketTransaction.tx_type tx = "issue" /\
                TicketTransaction.ticket_id tx = id).
Proof.
  induction 1 as [now | o v self self' _ [IHrec IHreg] Hrun].
  - split.
    + intros tx Htx. cbn in Htx. now apply elem_of_nil in Htx.
    + intros id t Ht. cbn in Ht. now rewrite lookup_empty in Ht.
  - apply run_op_history in Hrun as [[-> ->] | (tx & -> & -> & Hkind)];
      [split; assumption|].
    assert (Hkeeps : forall id, is_Some (tickets self !! id) ->
                       is_Some (apply_record (tickets self) tx !! id)).
    { intros id Hid.
      destruct Hkind as [(now & uuid & owner & event & ->)
                        | [(now & tid & new_owner & t & Ht & Hv & ->)
                          | (now & tid & t & Ht & Hv & ->)]];
        unfold apply_record; cbn.
      - rewrite lookup_insert_is_Some. destruct (decide (uuid = id)); auto.
      - now rewrite lookup_alter_is_Some.
      - now rewrite lookup_alter_is_Some. }
    split.
    + intros tx' Htx'. apply elem_of_app in Htx' as [Hold | Hnew].
      * apply Hkeeps, IHrec, Hold.
      * apply list_elem_of_singleton in Hnew as ->.
        destruct Hkind as [(now & uuid & owner & event & ->)
                          | [(now & tid & new_owner & t & Ht & Hv & ->)
                            | (now & tid & t & Ht & Hv & ->)]];
          unfold apply_record; cbn.
        -- rewrite lookup_insert_eq. eauto.
        -- rewrite lookup_alter_eq, Ht. cbn. eauto.
        -- rewrite lookup_alter_eq, Ht. cbn. eauto.
    + intros id t' Ht'.
      assert (Hold : forall t, tickets self !! id = Some t ->
                (Ticket.status t = "valid" \/ Ticket.status t = "redeemed") /\
                exists tx0, tx0 ∈ history self ++ [tx] /\
                            TicketTransaction.tx_type tx0 = "issue" /\
                            TicketTransaction.ticket_id tx0 = id).
      { intros t Ht. destruct (IHreg id t Ht) as (Hst & tx0 & Hin & Hty & Hid).
        split; [exact Hst|]. exists tx0.
        split; [apply elem_of_app; now left | split; assumption]. }
      destruct Hkind as [(now & uuid & owner & event & ->)
                        | [(now & tid & new_owner & t & Ht & Hv & ->)
                          | (now & tid & t & Ht & Hv & ->)]];
        unfold apply_record in Ht'; cbn in Ht'.
      * destruct (decide (uuid = id)) as [-> | Hne].
        -- rewrite lookup_insert_eq in Ht'. injection Ht' as <-.
           split; [now left|]. eexists.
           split; [apply elem_of_app; right; apply list_elem_of_singleton;
                   reflexivity|].
           split; reflexivity.
        -- rewrite lookup_insert_ne in Ht' by exact Hne. exact (Hold t' Ht').
      * destruct (decide (tid = id)) as [-> | Hne].
        -- rewrite lookup_alter_eq, Ht in Ht'. injection Ht' as <-.
           destruct (Hold t Ht) as [Hst Hrec].
           split; [exact Hst | exact Hrec].
        -- rewrite lookup_alter_ne in Ht' by exact Hne. exact (Hold t' Ht').
      * destruct (decide (tid = id)) as [-> | Hne].
        -- rewrite lookup_alter_eq, Ht in Ht'. injection Ht' as <-.
           destruct (Hold t Ht) as [_ Hrec].
           split; [now right | exact Hrec].
        -- rewrite lookup_alter_ne in Ht' by exact Hne. exact (Hold t' Ht').
Qed.

(** ** What [mine] appends *)

(** X14. When the pool is not empty and [n] is the least nonce at which
    the new block meets the difficulty, [mine] with fuel for [n] steps
    returns exactly this block, appended to the chain: index the former
    chain length, the former pool as transactions, the clock reading as
    time stamp, [previous_hash] the hash of the last block, nonce [n],
    and [hash] the hash of these fields; the pool is then empty and the
    registry as before. *)
Theorem mine_block_contents (fuel : nat) (now : float) (self : TicketBlockchain)
    (prev : Block.t) (n : Z) :
  pending_transactions self <> [] ->
  last (chain self) = Some prev ->
  least_nonce (new_block self now prev) n ->
  n <= Z.of_nat fuel ->
  exists b : Block.t,
    mine fuel now self
    = Returns (MineBlock b, Ledger (chain self ++ [b]) [] (tickets self)) /\
    Block.index b = Z.of_nat (length (chain self)) /\
    Block.transactions b = pending_transactions self /\
    Block.timestamp b = now /\
    Block.previous_hash b = compute_hash prev /\
    Block.nonce b = n /\
    Block.hash b = Some (compute_hash b).
Proof.
  intros Hpending Hlast Hleast Hfuel.
  exists (mined_block self now prev n).
  split; [exact (mine_least fuel now self prev n Hpending Hlast Hleast Hfuel)|].
  unfold mined_block. cbn zeta. rewrite compute_hash_set_hash.
  repeat split; reflexivity.
Qed.

(** ** The request handlers *)

(** X16. For a ticket that is not in the registry, [api_verify] answers
    404 with [valid] false and the message; [api_redeem], on a body that
    names the ticket, and [api_transfer], on a body that names the
    ticket and a new owner, answer 200 with [success] false and leave
    the ledger as it is. *)
Theorem api_unknown_ticket (now : float) (ticket_id : string)
    (data : gmap string string) (blockchain : TicketBlockchain) :
  tickets blockchain !! ticket_id = None ->
  data !! "ticket_id" = Some ticket_id ->
  api_verify ticket_id blockchain
    = (PDict [("valid", PBool false); ("message", PStr "Ticket not found")], 404) /\
  api_redeem now data blockchain
    = Returns ((PDict [("success", PBool false)], 200), blockchain) /\
  forall new_owner : string,
    data !! "new_owner" = Some new_owner ->
    api_transfer now data blockchain
    = Returns ((PDict [("success", PBool false)], 200), blockchain).
Proof.
  intros Hnone Hid.
  unfold api_verify, verify_ticket, api_transfer, api_redeem,
    transfer_ticket, redeem_ticket.
  rewrite Hid, Hnone. split; [reflexivity|]. split; [reflexivity|].
  intros new_owner ->. reflexivity.
Qed.

(** X17. [api_issue] on a body with ["owner"] and ["event"] answers 201
    with the new identifier, and [api_verify] of that identifier right
    after answers 200 with [valid] true and the ticket as issued. *)
Theorem api_issue_then_verify (now : float) (uuid owner event : string)
    (data : gmap string string) (blockchain : TicketBlockchain) :
  data !! "owner" = Some owner ->
  data !! "event" = Some event ->
  exists blockchain',
    api_issue now uuid data blockchain
      = Returns ((PDict [("ticket_id", PStr uuid)], 201), blockchain') /\
    api_verify uuid blockchain'
      = (PDict [("valid", PBool true);
                ("ticket", PDict [("owner", PStr owner);
                                  ("status", PStr "valid");
                                  ("event", PStr event)])], 200).
Proof.
  intros Howner Hevent. unfold api_issue. rewrite Howner, Hevent.
  eexists. split; [reflexivity|].
  unfold api_verify, verify_ticket. cbn [tickets].
  rewrite lookup_insert_eq. reflexivity.
Qed.

(** X18. On a ["valid"] ticket [api_redeem], on a body that names the
    ticket, and [api_transfer], on a body that names the ticket and a
    new owner, answer 200 with [success] true; [api_verify] after the
    transfer shows the new owner with [valid] true, and after the redeem
    shows status ["redeemed"] with [valid] false. *)
Theorem api_transfer_redeem_then_verify (now : float)
    (ticket_id : string) (data : gmap string string)
    (blockchain : TicketBlockchain) (t : Ticket.t) :
  tickets blockchain !! ticket_id = Some t ->
  Ticket.status t = "valid" ->
  data !! "ticket_id" = Some ticket_id ->
  (forall new_owner : string,
     data !! "new_owner" = Some new_owner ->
     exists blockchain',
       api_transfer now data blockchain
         = Returns ((PDict [("success", PBool true)], 200), blockchain') /\
       api_verify ticket_id blockchain'
         = (PDict [("valid", PBool true);
                   ("ticket", PDict [("owner", PStr new_owner);
                                     ("status", PStr "valid");
                                     ("event", PStr (Ticket.event t))])], 200)) /\
  (exists blockchain',
     api_redeem now data blockchain
       = Returns ((PDict [("success", PBool true)], 200), blockchain') /\
     api_verify ticket_id blockchain'
       = (PDict [("valid", PBool false);
                 ("ticket", PDict [("owner", PStr (Ticket.owner t));
                                   ("status", PStr "redeemed");
                                   ("event", PStr (Ticket.event t))])], 200)).
Proof.
  intros Hsome Hvalid Hid.
  unfold api_transfer, api_redeem, transfer_ticket, redeem_ticket.
  rewrite Hid, Hsome, (status_valid t Hvalid).
  split; [intros new_owner ->|]; eexists; (split; [reflexivity|]);
    unfold api_verify, verify_ticket; cbn [tickets];
    rewrite lookup_insert_eq;
    unfold ticket_dict, Ticket.set_owner, Ticket.set_status;
    cbn [Ticket.owner Ticket.status Ticket.event];
    rewrite ?Hvalid; reflexivity.
Qed.

Lemma map_lookup {A B : Type} (f : A -> B) (l : list A) (i : nat) :
  map f l !! i = f <$> l !! i.
Proof.
  revert i. induction l as [|x l IH]; intros [|i]; cbn; auto.
Qed.

(** X19. On a reachable ledger [api_chain] answers 200 with one entry
    per block, in order; the entry of block [i] has index [i], its
    [hash], computed anew, is the hash stored in the block, and it is
    the [previous_hash] of the next entry. *)
Theorem api_chain_linked (blockchain : TicketBlockchain) :
  reachable blockchain ->
  exists entries : list pyval,
    api_chain blockchain = (PList entries, 200) /\
    length entries = length (chain blockchain) /\
    forall (i : nat) (e : pyval),
      entries !! i = Some e ->
      exists (b : Block.t) (h : string),
        chain blockchain !! i = Some b /\
        Block.hash b = Some h /\
        dict_get "index" e = Some (PInt (Z.of_nat i)) /\
        dict_get "hash" e = Some (PStr h) /\
        forall e', entries !! S i = Some e' ->
          dict_get "previous_hash" e' = Some (PStr h).
Proof.
  intros Hreach.
  destruct (reachable_chain_valid blockchain Hreach) as (_ & Hblocks & Hlinks).
  exists (map chain_entry (chain blockchain)).
  split; [reflexivity|]. split; [apply length_map|].
  intros i e He. rewrite map_lookup in He.
  destruct (chain blockchain !! i) as [b|] eqn:Hb; [|discriminate].
  injection He as <-. destruct (Hblocks i b Hb) as [Hhash Hindex].
  exists b, (compute_hash b). split; [reflexivity|]. split; [exact Hhash|].
  split; [cbn; now rewrite Hindex|]. split; [reflexivity|].
  intros e' He'. rewrite map_lookup in He'.
  destruct (chain blockchain !! S i) as [b'|] eqn:Hb'; [|discriminate].
  injection He' as <-. destruct (Hlinks i b b' Hb Hb') as [Hprev _].
  cbn. now rewrite Hprev.
Qed.

Lemma api_mine_mined (fuel : nat) (now : float) (blockchain : TicketBlockchain)
    (prev : Block.t) (n : Z) :
  mine fuel now blockchain
    = Returns (MineBlock (mined_block blockchain now prev n),
               mined blockchain now prev n) ->
  api_mine fuel now blockchain
  = Returns ((PDict [("index", PInt (Z.of_nat (length (chain blockchain))));
                     ("transactions",
                       PList (map to_dict (pending_transactions blockchain)));
                     ("hash",
                       PStr (compute_hash (mined_block blockchain now prev n)))],
              200),
             mined blockchain now prev n).
Proof.
  intros Hmine. unfold api_mine. rewrite Hmine.
  unfold mined_block. cbn zeta. rewrite compute_hash_set_hash. reflexivity.
Qed.

(** X20. [api_mine] on a reachable ledger. With an empty pool it
    answers 200 with the message and leaves the ledger as it is. With
    records pending it never raises; when it returns, it answers 200
    with the former chain length as [index], the former pool as
    [transactions] and as [hash] the hash stored in the new last block,
    which starts with [difficulty] zeros, and the pool is empty; it
    returns as soon as the fuel reaches the least nonce of the new
    block. *)
Theorem api_mine_response (blockchain : TicketBlockchain) (now : float) :
  reachable blockchain ->
  (pending_transactions blockchain = [] ->
   forall fuel,
     api_mine fuel now blockchain
     = Returns ((PDict [("message", PStr "No transactions to mine")], 200),
                blockchain)) /\
  (pending_transactions blockchain <> [] ->
   (forall fuel, api_mine fuel now blockchain <> Raises) /\
   (forall fuel body code blockchain',
      api_mine fuel now blockchain = Returns ((body, code), blockchain') ->
      code = 200 /\
      dict_get "index" body
        = Some (PInt (Z.of_nat (length (chain blockchain)))) /\
      dict_get "transactions" body
        = Some (PList (map to_dict (pending_transactions blockchain))) /\
      (exists (h : string) (b : Block.t),
         dict_get "hash" body = Some (PStr h) /\
         last (chain blockchain') = Some b /\
         Block.hash b = Some h /\
         startswith h (str_mul "0" difficulty) = true) /\
      pending_transactions blockchain' = [] /\
      length (chain blockchain') = S (length (chain blockchain))) /\
   (forall prev n fuel,
      last (chain blockchain) = Some prev ->
      least_nonce (new_block blockchain now prev) n ->
      n <= Z.of_nat fuel ->
      exists body blockchain',
        api_mine fuel now blockchain = Returns ((body, 200), blockchain'))).
Proof.
  intros Hreach. split.
  - intros Hempty fuel. unfold api_mine.
    now rewrite (mine_empty_pool blockchain fuel now Hempty).
  - intros Hpending.
    destruct (reachable_chain_valid blockchain Hreach) as (Hne & _).
    apply last_is_Some in Hne as [prev0 Hlast0].
    split; [|split].
    + intros fuel Hraises. unfold api_mine in Hraises.
      destruct (mine fuel now blockchain) as [[r s]| |] eqn:Hmine.
      * apply mine_returns_least in Hmine as (prev & n & _ & _ & -> & ->);
          [|exact Hpending].
        cbn in Hraises. discriminate.
      * unfold mine in Hmine. rewrite Hlast0 in Hmine.
        destruct (pending_transactions blockchain); [congruence|].
        destruct (proof_of_work _ _) as [[h b]|]; discriminate.
      * discriminate.
    + intros fuel body code blockchain' Hrun.
      destruct (mine fuel now blockchain) as [[r s]| |] eqn:Hmine;
        [|unfold api_mine in Hrun; rewrite Hmine in Hrun; discriminate ..].
      pose proof Hmine as Hshape.
      apply mine_returns_least in Hshape as (prev & n & _ & Hleast & -> & ->);
        [|exact Hpending].
      rewrite (api_mine_mined fuel now blockchain prev n Hmine) in Hrun.
      injection Hrun as <- <- <-.
      split; [reflexivity|]. split; [reflexivity|]. split; [reflexivity|].
      split; [|split; [reflexivity | unfold mined; cbn; rewrite length_app; cbn; lia]].
      exists (compute_hash (mined_block blockchain now prev n)),
             (mined_block blockchain now prev n).
      split; [reflexivity|]. split; [apply last_snoc|].
      split.
      { unfold mined_block. cbn zeta. rewrite compute_hash_set_hash.
        reflexivity. }
      destruct Hleast as (_ & Hmeets & _).
      rewrite mined_block_hash. unfold meets_difficulty in Hmeets.
      exact Hmeets.
    + intros prev n fuel Hlast Hleast Hfuel.
      pose proof (mine_least fuel now blockchain prev n Hpending Hlast Hleast Hfuel)
        as Hmine.
      rewrite (api_mine_mined fuel now blockchain prev n Hmine). eauto.
Qed.

(** ** The run of [demo_flow] *)

(** The ledger of [demo_flow] after its transfer, and after its redeem. *)
Lemma demo_after_transfer (uuid : string) (t_issue t_mine1 t_transfer : float)
    (blockchain : TicketBlockchain) (prev : Block.t) (n1 : Z) :
  let l1 := snd (issue_ticket t_issue uuid "Alice" "Rock Concert" blockchain) in
  snd (transfer_ticket t_transfer uuid "Bob" (mined l1 t_mine1 prev n1))
  = Ledger (chain blockchain ++ [mined_block l1 t_mine1 prev n1])
      [TicketTransaction.mk "transfer" uuid "Alice" None (Some "Bob") t_transfer]
      (<[uuid := Ticket.mk "Bob" "valid" "Rock Concert"]> (tickets blockchain)).
Proof.
  intros l1. unfold transfer_ticket, mined. cbn [tickets].
  subst l1. unfold issue_ticket.
  cbn [snd tickets add_transaction chain pending_transactions].
  rewrite lookup_insert_eq. cbn. now rewrite insert_insert_eq.
Qed.

Lemma demo_after_redeem (uuid : string) (t_redeem t_mine2 : float)
    (l2 : TicketBlockchain) (c : list Block.t) (pool : list TicketTransaction.t)
    (reg : gmap string Ticket.t) (prev : Block.t) (n2 : Z) :
  l2 = Ledger c pool (<[uuid := Ticket.mk "Bob" "valid" "Rock Concert"]> reg) ->
  snd (redeem_ticket t_redeem uuid (mined l2 t_mine2 prev n2))
  = Ledger (c ++ [mined_block l2 t_mine2 prev n2])
      [TicketTransaction.mk "redeem" uuid "Bob" None None t_redeem]
      (<[uuid := Ticket.mk "Bob" "redeemed" "Rock Concert"]> reg).
Proof.
  intros ->. unfold redeem_ticket, mined.
  cbn [tickets chain pending_transactions].
  rewrite lookup_insert_eq. cbn. now rewrite insert_insert_eq.
Qed.

(** [demo_flow] when its three calls of [mine] return blocks. *)
Lemma demo_flow_from_mines (uuid : string)
    (t_issue t_mine1 t_transfer t_mine2 t_redeem t_mine3 : float) (fuel : nat)
    (blockchain : TicketBlockchain) (p1 p2 p3 : Block.t) (n1 n2 n3 : Z) :
  let l1 := snd (issue_ticket t_issue uuid "Alice" "Rock Concert" blockchain) in
  let b1 := mined_block l1 t_mine1 p1 n1 in
  let l2 := snd (transfer_ticket t_transfer uuid "Bob" (mined l1 t_mine1 p1 n1)) in
  let b2 := mined_block l2 t_mine2 p2 n2 in
  let l3 := snd (redeem_ticket t_redeem uuid (mined l2 t_mine2 p2 n2)) in
  let b3 := mined_block l3 t_mine3 p3 n3 in
  mine fuel t_mine1 l1 = Returns (MineBlock b1, mined l1 t_mine1 p1 n1) ->
  mine fuel t_mine2 l2 = Returns (MineBlock b2, mined l2 t_mine2 p2 n2) ->
  mine fuel t_mine3 l3 = Returns (MineBlock b3, mined l3 t_mine3 p3 n3) ->
  demo_flow uuid t_issue t_mine1 t_transfer t_mine2 t_redeem t_mine3 fuel
    blockchain
  = Returns (Some (Ticket.mk "Bob" "redeemed" "Rock Concert"),
             Ledger (chain blockchain ++ [b1; b2; b3]) []
               (<[uuid := Ticket.mk "Bob" "redeemed" "Rock Concert"]>
                  (tickets blockchain))).
Proof.
  intros l1 b1 l2 b2 l3 b3 Hm1 Hm2 Hm3.
  pose proof (demo_after_transfer uuid t_issue t_mine1 t_transfer blockchain
                p1 n1) as Hl2.
  cbn zeta in Hl2. fold l1 in Hl2. fold l2 in Hl2. fold b1 in Hl2.
  pose proof (demo_after_redeem uuid t_redeem t_mine2 l2 _ _ _ p2 n2 Hl2) as Hl3.
  fold l3 in Hl3. fold b2 in Hl3.
  assert (Hc3 : chain l3 = (chain blockchain ++ [b1]) ++ [b2])
    by (rewrite Hl3; reflexivity).
  assert (Ht3 : tickets l3
                = <[uuid := Ticket.mk "Bob" "redeemed" "Rock Concert"]>
                    (tickets blockchain))
    by (rewrite Hl3; reflexivity).
  unfold demo_flow.
  rewrite (surjective_pairing
             (issue_ticket t_issue uuid "Alice" "Rock Concert" blockchain)).
  change (snd (issue_ticket t_issue uuid "Alice" "Rock Concert" blockchain))
    with l1.
  change (fst (issue_ticket t_issue uuid "Alice" "Rock Concert" blockchain))
    with uuid.
  rewrite Hm1.
  rewrite (surjective_pairing
             (transfer_ticket t_transfer uuid "Bob" (mined l1 t_mine1 p1 n1))).
  change (snd (transfer_ticket t_transfer uuid "Bob" (mined l1 t_mine1 p1 n1)))
    with l2.
  rewrite Hm2.
  rewrite (surjective_pairing
             (redeem_ticket t_redeem uuid (mined l2 t_mine2 p2 n2))).
  change (snd (redeem_ticket t_redeem uuid (mined l2 t_mine2 p2 n2))) with l3.
  rewrite Hm3. unfold mined, verify_ticket. cbn [tickets].
  change (mined_block l3 t_mine3 p3 n3) with b3.
  rewrite Hc3, Ht3, lookup_insert_eq, <- !app_assoc. reflexivity.
Qed.

(** X21. [demo_flow] on a ledger with a chain, for every identifier and
    every clock: if the three searches have the least nonces [n1], [n2],
    [n3] within the fuel, the run returns; the ticket it verifies at the
    end is owned by Bob, redeemed, for the Rock Concert; the chain has
    three more blocks, holding the pool with the ["issue"] record, the
    ["transfer"] record and the ["redeem"] record; the pool is empty. *)
Theorem demo_flow_run (uuid : string)
    (t_issue t_mine1 t_transfer t_mine2 t_redeem t_mine3 : float) (fuel : nat)
    (blockchain : TicketBlockchain) (prev : Block.t) (n1 n2 n3 : Z) :
  last (chain blockchain) = Some prev ->
  let l1 := snd (issue_ticket t_issue uuid "Alice" "Rock Concert" blockchain) in
  let b1 := mined_block l1 t_mine1 prev n1 in
  let l2 := snd (transfer_ticket t_transfer uuid "Bob" (mined l1 t_mine1 prev n1)) in
  let b2 := mined_block l2 t_mine2 b1 n2 in
  let l3 := snd (redeem_ticket t_redeem uuid (mined l2 t_mine2 b1 n2)) in
  let b3 := mined_block l3 t_mine3 b2 n3 in
  least_nonce (new_block l1 t_mine1 prev) n1 -> n1 <= Z.of_nat fuel ->
  least_nonce (new_block l2 t_mine2 b1) n2 -> n2 <= Z.of_nat fuel ->
  least_nonce (new_block l3 t_mine3 b2) n3 -> n3 <= Z.of_nat fuel ->
  demo_flow uuid t_issue t_mine1 t_transfer t_mine2 t_redeem t_mine3 fuel
    blockchain
  = Returns (Some (Ticket.mk "Bob" "redeemed" "Rock Concert"),
             Ledger (chain blockchain ++ [b1; b2; b3]) []
               (<[uuid := Ticket.mk "Bob" "redeemed" "Rock Concert"]>
                  (tickets blockchain))) /\
  Block.transactions b1 =
    pending_transactions blockchain ++
      [TicketTransaction.mk "issue" uuid "Alice" (Some "Rock Concert") None
         t_issue] /\
  Block.transactions b2 =
    [TicketTransaction.mk "transfer" uuid "Alice" None (Some "Bob") t_transfer] /\
  Block.transactions b3 =
    [TicketTransaction.mk "redeem" uuid "Bob" None None t_redeem].
Proof.
  intros Hlast l1 b1 l2 b2 l3 b3 Hn1 Hf1 Hn2 Hf2 Hn3 Hf3.
  pose proof (demo_after_transfer uuid t_issue t_mine1 t_transfer blockchain
                prev n1) as Hl2.
  cbn zeta in Hl2. fold l1 in Hl2. fold l2 in Hl2. fold b1 in Hl2.
  pose proof (demo_after_redeem uuid t_redeem t_mine2 l2 _ _ _ b1 n2 Hl2) as Hl3.
  fold l3 in Hl3. fold b2 in Hl3.
  assert (Hm1 : mine fuel t_mine1 l1 = Returns (MineBlock b1, mined l1 t_mine1 prev n1)).
  { apply mine_least; [ | exact Hlast | exact Hn1 | exact Hf1].
    subst l1. cbn. now destruct (pending_transactions blockchain). }
  assert (Hm2 : mine fuel t_mine2 l2 = Returns (MineBlock b2, mined l2 t_mine2 b1 n2)).
  { apply mine_least; [ | | exact Hn2 | exact Hf2].
    - rewrite Hl2. discriminate.
    - rewrite Hl2. apply last_snoc. }
  assert (Hm3 : mine fuel t_mine3 l3 = Returns (MineBlock b3, mined l3 t_mine3 b2 n3)).
  { apply mine_least; [ | | exact Hn3 | exact Hf3].
    - rewrite Hl3. discriminate.
    - rewrite Hl3. apply last_snoc. }
  split; [exact (demo_flow_from_mines uuid t_issue t_mine1 t_transfer t_mine2
                   t_redeem t_mine3 fuel blockchain prev b1 b2 n1 n2 n3
                   Hm1 Hm2 Hm3)|].
  split; [reflexivity|].
  split; [subst b2; now rewrite Hl2 | subst b3; now rewrite Hl3].
Qed.

Lemma mine_raises (fuel : nat) (now : float) (self : TicketBlockchain) :
  mine fuel now self = Raises -> chain self = [].
Proof.
  unfold mine. intros Hrun.
  destruct (pending_transactions self); [discriminate|].
  destruct (last (chain self)) as [prev|] eqn:Hlast.
  - destruct (proof_of_work _ _) as [[h b]|]; discriminate.
  - now apply last_None.
Qed.

(** X22. [demo_flow] on a ledger with a chain never raises: each of its
    calls of [mine] finds a record in the pool, so none returns the
    [False] on which [block.index] would fail. Whenever the run returns,
    the verified ticket is owned by Bob, redeemed, for the Rock Concert,
    the chain is three blocks longer and the pool is empty. *)
Theorem demo_flow_never_raises (uuid : string)
    (t_issue t_mine1 t_transfer t_mine2 t_redeem t_mine3 : float) (fuel : nat)
    (blockchain : TicketBlockchain) :
  chain blockchain <> [] ->
  demo_flow uuid t_issue t_mine1 t_transfer t_mine2 t_redeem t_mine3 fuel
    blockchain <> Raises /\
  forall (ticket : option Ticket.t) (blockchain' : TicketBlockchain),
    demo_flow uuid t_issue t_mine1 t_transfer t_mine2 t_redeem t_mine3 fuel
      blockchain = Returns (ticket, blockchain') ->
    ticket = Some (Ticket.mk "Bob" "redeemed" "Rock Concert") /\
    length (chain blockchain') = (length (chain blockchain) + 3)%nat /\
    chain blockchain `prefix_of` chain blockchain' /\
    pending_transactions blockchain' = [] /\
    tickets blockchain'
      = <[uuid := Ticket.mk "Bob" "redeemed" "Rock Concert"]> (tickets blockchain).
Proof.
  intros Hchain.
  set (l1 := snd (issue_ticket t_issue uuid "Alice" "Rock Concert" blockchain)).
  assert (Hp1 : pending_transactions l1 <> []).
  { subst l1. cbn. now destruct (pending_transactions blockchain). }
  destruct (mine fuel t_mine1 l1) as [[r1 s1]| |] eqn:Hm1.
  - pose proof Hm1 as Hs1.
    apply mine_returns_least in Hs1 as (p1 & n1 & _ & _ & Hr1 & Hs1);
      [|exact Hp1].
    fold (mined l1 t_mine1 p1 n1) in Hs1. subst r1 s1.
    set (l2 := snd (transfer_ticket t_transfer uuid "Bob" (mined l1 t_mine1 p1 n1))).
    pose proof (demo_after_transfer uuid t_issue t_mine1 t_transfer blockchain
                  p1 n1) as Hl2.
    cbn zeta in Hl2. fold l1 in Hl2. fold l2 in Hl2.
    destruct (mine fuel t_mine2 l2) as [[r2 s2]| |] eqn:Hm2.
    + pose proof Hm2 as Hs2.
      apply mine_returns_least in Hs2 as (p2 & n2 & _ & _ & Hr2 & Hs2);
        [|rewrite Hl2; discriminate].
      fold (mined l2 t_mine2 p2 n2) in Hs2. subst r2 s2.
      set (l3 := snd (redeem_ticket t_redeem uuid (mined l2 t_mine2 p2 n2))).
      pose proof (demo_after_redeem uuid t_redeem t_mine2 l2 _ _ _ p2 n2 Hl2)
        as Hl3.
      fold l3 in Hl3.
      destruct (mine fuel t_mine3 l3) as [[r3 s3]| |] eqn:Hm3.
      * pose proof Hm3 as Hs3.
        apply mine_returns_least in Hs3 as (p3 & n3 & _ & _ & Hr3 & Hs3);
          [|rewrite Hl3; discriminate].
        fold (mined l3 t_mine3 p3 n3) in Hs3. subst r3 s3.
        rewrite (demo_flow_from_mines uuid t_issue t_mine1 t_transfer t_mine2
                   t_redeem t_mine3 fuel blockchain p1 p2 p3 n1 n2 n3
                   Hm1 Hm2 Hm3).
        split; [discriminate|]. intros ticket blockchain' Hret.
        injection Hret as <- <-. cbn [chain pending_transactions tickets].
        split; [reflexivity|]. split; [rewrite length_app; cbn; lia|].
        split; [now apply prefix_app_r | split; reflexivity].
      * exfalso. apply mine_raises in Hm3. rewrite Hl3 in Hm3. cbn in Hm3.
        now apply app_eq_nil in Hm3 as [_ ?].
      * assert (Hout : demo_flow uuid t_issue t_mine1 t_transfer t_mine2
                         t_redeem t_mine3 fuel blockchain = OutOfFuel).
        { unfold demo_flow.
          rewrite (surjective_pairing
                     (issue_ticket t_issue uuid "Alice" "Rock Concert" blockchain)).
          fold l1. cbn [fst]. rewrite Hm1.
          rewrite (surjective_pairing
                     (transfer_ticket t_transfer uuid "Bob"
                        (mined l1 t_mine1 p1 n1))).
          fold l2. rewrite Hm2.
          rewrite (surjective_pairing
                     (redeem_ticket t_redeem uuid (mined l2 t_mine2 p2 n2))).
          fold l3. now rewrite Hm3. }
        rewrite Hout. split; [discriminate | intros ? ? ?; discriminate].
    + exfalso. apply mine_raises in Hm2. rewrite Hl2 in Hm2. cbn in Hm2.
      now apply app_eq_nil in Hm2 as [_ ?].
    + assert (Hout : demo_flow uuid t_issue t_mine1 t_transfer t_mine2
                       t_redeem t_mine3 fuel blockchain = OutOfFuel).
      { unfold demo_flow.
        rewrite (surjective_pairing
                   (issue_ticket t_issue uuid "Alice" "Rock Concert" blockchain)).
        fold l1. cbn [fst]. rewrite Hm1.
        rewrite (surjective_pairing
                   (transfer_ticket t_transfer uuid "Bob"
                      (mined l1 t_mine1 p1 n1))).
        fold l2. now rewrite Hm2. }
      rewrite Hout. split; [discriminate | intros ? ? ?; discriminate].
  - exfalso. apply mine_raises in Hm1. subst l1. cbn in Hm1. congruence.
  - assert (Hout : demo_flow uuid t_issue t_mine1 t_transfer t_mine2
                     t_redeem t_mine3 fuel blockchain = OutOfFuel).
    { unfold demo_flow.
      rewrite (surjective_pairing
                 (issue_ticket t_issue uuid "Alice" "Rock Concert" blockchain)).
      fold l1. now rewrite Hm1. }
    rewrite Hout. split; [discriminate | intros ? ? ?; discriminate].
Qed.

End Steps.

(** ** The further theorems at the ledgers of the example *)

Lemma demo_least1 : least_nonce (new_block ledger1 (clock 1700000089) genesis0) 3.
Proof.
  split; [lia|]. split; [vm_compute; reflexivity|].
  intros m Hm. assert (m = 0 \/ m = 1 \/ m = 2) as [-> | [-> | ->]] by lia;
    vm_compute; reflexivity.
Qed.

Lemma demo_least2 : least_nonce (new_block demo_l2 (clock 1700000157) demo_b1) 2.
Proof.
  split; [lia|]. split; [vm_compute; reflexivity|].
  intros m Hm. assert (m = 0 \/ m = 1) as [-> | ->] by lia;
    vm_compute; reflexivity.
Qed.

Lemma demo_least3 : least_nonce (new_block demo_l3 (clock 1700000395) demo_b2) 1.
Proof.
  split; [lia|]. split; [vm_compute; reflexivity|].
  intros m Hm. assert (m = 0) as -> by lia. vm_compute; reflexivity.
Qed.

Lemma ledger1_ticket :
  tickets ledger1 !! demo_id = Some (Ticket.mk "Alice" "valid" "Rock Concert").
Proof. vm_compute. reflexivity. Qed.

Lemma redeem_ticket_effect_witness :
  tickets ledger1 !! demo_id = Some (Ticket.mk "Alice" "valid" "Rock Concert") /\
  exists self',
    redeem_ticket (clock 1700000217) demo_id ledger1 = (true, self') /\
    pending_transactions self' =
      pending_transactions ledger1 ++
        [TicketTransaction.mk "redeem" demo_id "Alice" None None
           (clock 1700000217)] /\
    tickets self' !! demo_id = Some (Ticket.mk "Alice" "redeemed" "Rock Concert") /\
    (forall other, other <> demo_id ->
       tickets self' !! other = tickets ledger1 !! other) /\
    chain self' = chain ledger1.
Proof.
  split; [exact ledger1_ticket|].
  exact (redeem_ticket_effect ledger1 (clock 1700000217) demo_id _
           ledger1_ticket eq_refl).
Defined.

Lemma redeemed_ticket_refused_witness :
  tickets ledger1 !! demo_id = Some (Ticket.mk "Alice" "valid" "Rock Concert") /\
  fst (redeem_ticket (clock 1700000217) demo_id ledger1) = true /\
  fresh_uuids [Transfer (clock 1700000300) demo_id "Bob";
               Issue (clock 1700000400) "0b0e5f2a-58b4-4f6a-9d2c-3f1c7a9e4d10"
                 "Carol" "Rock Concert"] ledger_redeemed /\
  forall (later : float) (new_owner : string),
    redeem_ticket later demo_id
      (after [Transfer (clock 1700000300) demo_id "Bob";
              Issue (clock 1700000400) "0b0e5f2a-58b4-4f6a-9d2c-3f1c7a9e4d10"
                "Carol" "Rock Concert"] ledger_redeemed)
    = (false,
       after [Transfer (clock 1700000300) demo_id "Bob";
              Issue (clock 1700000400) "0b0e5f2a-58b4-4f6a-9d2c-3f1c7a9e4d10"
                "Carol" "Rock Concert"] ledger_redeemed) /\
    transfer_ticket later demo_id new_owner
      (after [Transfer (clock 1700000300) demo_id "Bob";
              Issue (clock 1700000400) "0b0e5f2a-58b4-4f6a-9d2c-3f1c7a9e4d10"
                "Carol" "Rock Concert"] ledger_redeemed)
    = (false,
       after [Transfer (clock 1700000300) demo_id "Bob";
              Issue (clock 1700000400) "0b0e5f2a-58b4-4f6a-9d2c-3f1c7a9e4d10"
                "Carol" "Rock Concert"] ledger_redeemed).
Proof.
  assert (Hfresh : fresh_uuids
            [Transfer (clock 1700000300) demo_id "Bob";
             Issue (clock 1700000400) "0b0e5f2a-58b4-4f6a-9d2c-3f1c7a9e4d10"
               "Carol" "Rock Concert"] ledger_redeemed)
    by (vm_compute; auto).
  destruct (redeemed_ticket_refused ledger1 (clock 1700000217) demo_id _
              ledger1_ticket eq_refl) as [Hok Hlater].
  split; [exact ledger1_ticket|]. split; [exact Hok|]. split; [exact Hfresh|].
  apply (Hlater _ _ Hfresh). vm_compute. reflexivity.
Defined.

Lemma issue_ticket_effect_witness :
  tickets ledger0 !! demo_id = None /\
  pending_transactions ledger1 =
    pending_transactions ledger0 ++
      [TicketTransaction.mk "issue" demo_id "Alice" (Some "Rock Concert") None
         (clock 1700000060)] /\
  size (tickets ledger1) = S (size (tickets ledger0)) /\
  (forall id t, tickets ledger0 !! id = Some t -> tickets ledger1 !! id = Some t) /\
  chain ledger1 = chain ledger0.
Proof.
  assert (Hfresh : tickets ledger0 !! demo_id = None) by reflexivity.
  split; [exact Hfresh|].
  exact (issue_ticket_effect ledger0 (clock 1700000060) demo_id "Alice"
           "Rock Concert" Hfresh).
Defined.

Lemma ticket_state_machine_witness :
  tickets ledger1 !! demo_id = Some (Ticket.mk "Alice" "valid" "Rock Concert") /\
  fresh_uuid (Transfer (clock 1700000149) demo_id "Bob") ledger1 /\
  run_op (Transfer (clock 1700000149) demo_id "Bob") ledger1
    = Returns (VBool true,
               snd (transfer_ticket (clock 1700000149) demo_id "Bob" ledger1)) /\
  exists t',
    tickets (snd (transfer_ticket (clock 1700000149) demo_id "Bob" ledger1))
      !! demo_id = Some t' /\
    (t' = Ticket.mk "Alice" "valid" "Rock Concert" \/
     (Ticket.status (Ticket.mk "Alice" "valid" "Rock Concert") = "valid" /\
      exists now new_owner,
        Transfer (clock 1700000149) demo_id "Bob"
          = Transfer now demo_id new_owner /\
        t' = Ticket.mk new_owner "valid" "Rock Concert") \/
     (Ticket.status (Ticket.mk "Alice" "valid" "Rock Concert") = "valid" /\
      exists now,
        Transfer (clock 1700000149) demo_id "Bob" = Redeem now demo_id /\
        t' = Ticket.mk "Alice" "redeemed" "Rock Concert")).
Proof.
  assert (Hrun : run_op (Transfer (clock 1700000149) demo_id "Bob") ledger1
                 = Returns (VBool true,
                     snd (transfer_ticket (clock 1700000149) demo_id "Bob" ledger1)))
    by (vm_compute; reflexivity).
  split; [exact ledger1_ticket|]. split; [exact I|]. split; [exact Hrun|].
  exact (ticket_state_machine (Transfer (clock 1700000149) demo_id "Bob")
           ledger1 _ _ demo_id _ ledger1_ticket I Hrun).
Defined.

Lemma ticket_event_kept_witness :
  tickets ledger1 !! demo_id = Some (Ticket.mk "Alice" "valid" "Rock Concert") /\
  fresh_uuids [Transfer (clock 1700000149) demo_id "Bob";
               Redeem (clock 1700000217) demo_id] ledger1 /\
  exists t',
    tickets (after [Transfer (clock 1700000149) demo_id "Bob";
                    Redeem (clock 1700000217) demo_id] ledger1) !! demo_id
      = Some t' /\
    Ticket.event t' = "Rock Concert".
Proof.
  assert (Hfresh : fresh_uuids [Transfer (clock 1700000149) demo_id "Bob";
                                Redeem (clock 1700000217) demo_id] ledger1)
    by (vm_compute; auto).
  split; [exact ledger1_ticket|]. split; [exact Hfresh|].
  apply (ticket_event_kept _ ledger1 _ demo_id _ ledger1_ticket Hfresh).
  vm_compute. reflexivity.
Defined.

Lemma redeemed_ticket_frozen_witness :
  tickets ledger_redeemed !! demo_id
    = Some (Ticket.mk "Alice" "redeemed" "Rock Concert") /\
  fresh_uuids [Transfer (clock 1700000300) demo_id "Bob";
               Issue (clock 1700000400) "0b0e5f2a-58b4-4f6a-9d2c-3f1c7a9e4d10"
                 "Carol" "Rock Concert"] ledger_redeemed /\
  tickets (after [Transfer (clock 1700000300) demo_id "Bob";
                  Issue (clock 1700000400) "0b0e5f2a-58b4-4f6a-9d2c-3f1c7a9e4d10"
                    "Carol" "Rock Concert"] ledger_redeemed) !! demo_id
    = Some (Ticket.mk "Alice" "redeemed" "Rock Concert").
Proof.
  assert (Hsome : tickets ledger_redeemed !! demo_id
                  = Some (Ticket.mk "Alice" "redeemed" "Rock Concert"))
    by (vm_compute; reflexivity).
  assert (Hfresh : fresh_uuids
            [Transfer (clock 1700000300) demo_id "Bob";
             Issue (clock 1700000400) "0b0e5f2a-58b4-4f6a-9d2c-3f1c7a9e4d10"
               "Carol" "Rock Concert"] ledger_redeemed)
    by (vm_compute; auto).
  split; [exact Hsome|]. split; [exact Hfresh|].
  apply (redeemed_ticket_frozen _ ledger_redeemed _ demo_id _ Hsome eq_refl Hfresh).
  vm_compute. reflexivity.
Defined.

Lemma chain_append_only_witness :
  run_ops (take 2 demo_ops) ledger0 = Returns ledger2 /\
  chain ledger0 `prefix_of` chain ledger2 /\
  (forall (i : nat) (b : Block.t),
     chain ledger0 !! i = Some b -> chain ledger2 !! i = Some b) /\
  (length (chain ledger2) <= length (chain ledger0) + length (take 2 demo_ops))%nat.
Proof.
  split; [exact ledger2_run|].
  exact (chain_append_only (take 2 demo_ops) ledger0 ledger2 ledger2_run).
Defined.

Lemma genesis_block_stays_witness :
  reachable ledger2 /\
  exists g : Block.t,
    chain ledger2 !! 0%nat = Some g /\
    Block.index g = 0 /\ Block.transactions g = [] /\
    Block.previous_hash g = "0" /\ Block.nonce g = 0 /\
    Block.hash g = Some (compute_hash g).
Proof.
  split; [exact ledger2_reachable|].
  exact (genesis_block_stays ledger2 ledger2_reachable).
Defined.

Lemma mined_blocks_least_nonce_witness :
  reachable ledger2 /\
  forall (i : nat) (b : Block.t),
    chain ledger2 !! i = Some b ->
    (0 < i)%nat ->
    Block.transactions b <> [] /\
    0 <= Block.nonce b /\
    meets_difficulty b = true /\
    (forall m, 0 <= m < Block.nonce b ->
       meets_difficulty (Block.set_nonce m b) = false).
Proof.
  split; [exact ledger2_reachable|].
  exact (mined_blocks_least_nonce ledger2 ledger2_reachable).
Defined.

Lemma ledger1_mine :
  mine 10 (clock 1700000089) ledger1 = Returns (MineBlock demo_b1, ledger2).
Proof. vm_compute. reflexivity. Qed.

Lemma mine_keeps_records_witness :
  mine 10 (clock 1700000089) ledger1 = Returns (MineBlock demo_b1, ledger2) /\
  history ledger2 = history ledger1 /\ tickets ledger2 = tickets ledger1.
Proof.
  split; [exact ledger1_mine|].
  exact (mine_keeps_records 10 (clock 1700000089) ledger1 ledger2 _ ledger1_mine).
Defined.

Lemma call_appends_one_record_witness :
  run_op (Redeem (clock 1700000217) demo_id) ledger1
    = Returns (VBool true, ledger_redeemed) /\
  ((history ledger_redeemed = history ledger1 /\
    tickets ledger_redeemed = tickets ledger1) \/
   exists tx,
     history ledger_redeemed = history ledger1 ++ [tx] /\
     tickets ledger_redeemed = apply_record (tickets ledger1) tx /\
     is_Some (tickets ledger_redeemed !! TicketTransaction.ticket_id tx) /\
     (TicketTransaction.tx_type tx = "issue" \/
      (exists t, tickets ledger1 !! TicketTransaction.ticket_id tx = Some t /\
                 Ticket.status t = "valid" /\
                 TicketTransaction.owner tx = Ticket.owner t /\
                 (TicketTransaction.tx_type tx = "transfer" \/
                  TicketTransaction.tx_type tx = "redeem")))).
Proof.
  assert (Hrun : run_op (Redeem (clock 1700000217) demo_id) ledger1
                 = Returns (VBool true, ledger_redeemed))
    by (vm_compute; reflexivity).
  split; [exact Hrun|].
  exact (call_appends_one_record _ ledger1 ledger_redeemed _ Hrun).
Defined.

Lemma registry_is_replay_witness :
  reachable ledger2 /\ tickets ledger2 = replay (history ledger2).
Proof.
  split; [exact ledger2_reachable|].
  exact (registry_is_replay ledger2 ledger2_reachable).
Defined.

Lemma records_and_registry_agree_witness :
  reachable ledger2 /\
  (forall tx, tx ∈ history ledger2 ->
     is_Some (tickets ledger2 !! TicketTransaction.ticket_id tx)) /\
  (forall id t, tickets ledger2 !! id = Some t ->
     (Ticket.status t = "valid" \/ Ticket.status t = "redeemed") /\
     exists tx, tx ∈ history ledger2 /\
                TicketTransaction.tx_type tx = "issue" /\
                TicketTransaction.ticket_id tx = id).
Proof.
  split; [exact ledger2_reachable|].
  exact (records_and_registry_agree ledger2 ledger2_reachable).
Defined.

Lemma mine_block_contents_witness :
  pending_transactions ledger1 <> [] /\
  last (chain ledger1) = Some genesis0 /\
  least_nonce (new_block ledger1 (clock 1700000089) genesis0) 3 /\
  3 <= Z.of_nat 10 /\
  exists b : Block.t,
    mine 10 (clock 1700000089) ledger1
    = Returns (MineBlock b, Ledger (chain ledger1 ++ [b]) [] (tickets ledger1)) /\
    Block.index b = Z.of_nat (length (chain ledger1)) /\
    Block.transactions b = pending_transactions ledger1 /\
    Block.timestamp b = clock 1700000089 /\
    Block.previous_hash b = compute_hash genesis0 /\
    Block.nonce b = 3 /\
    Block.hash b = Some (compute_hash b).
Proof.
  assert (Hpending : pending_transactions ledger1 <> []) by discriminate.
  assert (Hlast : last (chain ledger1) = Some genesis0) by reflexivity.
  assert (Hfuel : 3 <= Z.of_nat 10) by lia.
  split; [exact Hpending|]. split; [exact Hlast|].
  split; [exact demo_least1|]. split; [exact Hfuel|].
  exact (mine_block_contents 10 (clock 1700000089) ledger1 genesis0 3
           Hpending Hlast demo_least1 Hfuel).
Defined.

Lemma api_unknown_ticket_witness :
  tickets ledger1 !! "no-such-ticket" = None /\
  unknown_redeem_data !! "ticket_id" = Some "no-such-ticket" /\
  unknown_data !! "ticket_id" = Some "no-such-ticket" /\
  unknown_data !! "new_owner" = Some "Bob" /\
  api_verify "no-such-ticket" ledger1
    = (PDict [("valid", PBool false); ("message", PStr "Ticket not found")], 404) /\
  api_redeem (clock 1700000149) unknown_redeem_data ledger1
    = Returns ((PDict [("success", PBool false)], 200), ledger1) /\
  api_transfer (clock 1700000149) unknown_data ledger1
    = Returns ((PDict [("success", PBool false)], 200), ledger1).
Proof.
  assert (Hnone : tickets ledger1 !! "no-such-ticket" = None)
    by (vm_compute; reflexivity).
  assert (Hid1 : unknown_redeem_data !! "ticket_id" = Some "no-such-ticket")
    by (vm_compute; reflexivity).
  assert (Hid2 : unknown_data !! "ticket_id" = Some "no-such-ticket")
    by (vm_compute; reflexivity).
  assert (Hnew : unknown_data !! "new_owner" = Some "Bob")
    by (vm_compute; reflexivity).
  destruct (api_unknown_ticket (clock 1700000149) "no-such-ticket"
              unknown_redeem_data ledger1 Hnone Hid1) as (Hverify & Hredeem & _).
  destruct (api_unknown_ticket (clock 1700000149) "no-such-ticket"
              unknown_data ledger1 Hnone Hid2) as (_ & _ & Htransfer).
  split; [exact Hnone|]. split; [exact Hid1|]. split; [exact Hid2|].
  split; [exact Hnew|]. split; [exact Hverify|].
  split; [exact Hredeem | exact (Htransfer "Bob" Hnew)].
Defined.

Lemma api_issue_then_verify_witness :
  issue_data !! "owner" = Some "Alice" /\
  issue_data !! "event" = Some "Rock Concert" /\
  exists blockchain',
    api_issue (clock 1700000060) demo_id issue_data ledger0
      = Returns ((PDict [("ticket_id", PStr demo_id)], 201), blockchain') /\
    api_verify demo_id blockchain'
      = (PDict [("valid", PBool true);
                ("ticket", PDict [("owner", PStr "Alice");
                                  ("status", PStr "valid");
                                  ("event", PStr "Rock Concert")])], 200).
Proof.
  assert (Howner : issue_data !! "owner" = Some "Alice")
    by (vm_compute; reflexivity).
  assert (Hevent : issue_data !! "event" = Some "Rock Concert")
    by (vm_compute; reflexivity).
  split; [exact Howner|]. split; [exact Hevent|].
  exact (api_issue_then_verify (clock 1700000060) demo_id "Alice" "Rock Concert"
           issue_data ledger0 Howner Hevent).
Defined.

Lemma api_transfer_redeem_then_verify_witness :
  tickets ledger1 !! demo_id = Some (Ticket.mk "Alice" "valid" "Rock Concert") /\
  transfer_data !! "ticket_id" = Some demo_id /\
  transfer_data !! "new_owner" = Some "Bob" /\
  redeem_data !! "ticket_id" = Some demo_id /\
  (exists blockchain',
     api_transfer (clock 1700000149) transfer_data ledger1
       = Returns ((PDict [("success", PBool true)], 200), blockchain') /\
     api_verify demo_id blockchain'
       = (PDict [("valid", PBool true);
                 ("ticket", PDict [("owner", PStr "Bob");
                                   ("status", PStr "valid");
                                   ("event", PStr "Rock Concert")])], 200)) /\
  (exists blockchain',
     api_redeem (clock 1700000217) redeem_data ledger1
       = Returns ((PDict [("success", PBool true)], 200), blockchain') /\
     api_verify demo_id blockchain'
       = (PDict [("valid", PBool false);
                 ("ticket", PDict [("owner", PStr "Alice");
                                   ("status", PStr "redeemed");
                                   ("event", PStr "Rock Concert")])], 200)).
Proof.
  assert (Hid1 : transfer_data !! "ticket_id" = Some demo_id)
    by (vm_compute; reflexivity).
  assert (Hnew : transfer_data !! "new_owner" = Some "Bob")
    by (vm_compute; reflexivity).
  assert (Hid2 : redeem_data !! "ticket_id" = Some demo_id)
    by (vm_compute; reflexivity).
  destruct (api_transfer_redeem_then_verify (clock 1700000149) demo_id
              transfer_data ledger1 _ ledger1_ticket eq_refl Hid1)
    as [Htransfer _].
  destruct (api_transfer_redeem_then_verify (clock 1700000217) demo_id
              redeem_data ledger1 _ ledger1_ticket eq_refl Hid2)
    as [_ Hredeem].
  split; [exact ledger1_ticket|]. split; [exact Hid1|]. split; [exact Hnew|].
  split; [exact Hid2|]. split; [exact (Htransfer "Bob" Hnew) | exact Hredeem].
Defined.

Lemma api_chain_linked_witness :
  reachable ledger2 /\
  exists entries : list pyval,
    api_chain ledger2 = (PList entries, 200) /\
    length entries = length (chain ledger2) /\
    forall (i : nat) (e : pyval),
      entries !! i = Some e ->
      exists (b : Block.t) (h : string),
        chain ledger2 !! i = Some b /\
        Block.hash b = Some h /\
        dict_get "index" e = Some (PInt (Z.of_nat i)) /\
        dict_get "hash" e = Some (PStr h) /\
        forall e', entries !! S i = Some e' ->
          dict_get "previous_hash" e' = Some (PStr h).
Proof.
  split; [exact ledger2_reachable|].
  exact (api_chain_linked ledger2 ledger2_reachable).
Defined.

Lemma api_mine_response_witness :
  reachable ledger1 /\
  pending_transactions ledger1 <> [] /\
  exists body blockchain',
    api_mine 10 (clock 1700000089) ledger1
      = Returns ((body, 200), blockchain').
Proof.
  assert (Hpending : pending_transactions ledger1 <> []) by discriminate.
  split; [exact ledger1_reachable|]. split; [exact Hpending|].
  destruct (api_mine_response ledger1 (clock 1700000089) ledger1_reachable)
    as [_ Hmine].
  destruct (Hmine Hpending) as (_ & _ & Hreturns).
  apply (Hreturns genesis0 3 10%nat); [reflexivity | exact demo_least1 | lia].
Defined.

Lemma demo_flow_run_witness :
  last (chain ledger0) = Some genesis0 /\
  least_nonce (new_block ledger1 (clock 1700000089) genesis0) 3 /\
  least_nonce (new_block demo_l2 (clock 1700000157) demo_b1) 2 /\
  least_nonce (new_block demo_l3 (clock 1700000395) demo_b2) 1 /\
  demo_flow demo_id (clock 1700000060) (clock 1700000089) (clock 1700000149)
    (clock 1700000157) (clock 1700000217) (clock 1700000395) 10 ledger0
  = Returns (Some (Ticket.mk "Bob" "redeemed" "Rock Concert"),
             Ledger (chain ledger0 ++ [demo_b1; demo_b2; demo_b3]) []
               (<[demo_id := Ticket.mk "Bob" "redeemed" "Rock Concert"]>
                  (tickets ledger0))).
Proof.
  assert (Hlast : last (chain ledger0) = Some genesis0) by reflexivity.
  split; [exact Hlast|]. split; [exact demo_least1|].
  split; [exact demo_least2|]. split; [exact demo_least3|].
  exact (proj1 (demo_flow_run demo_id (clock 1700000060) (clock 1700000089)
                  (clock 1700000149) (clock 1700000157) (clock 1700000217)
                  (clock 1700000395) 10 ledger0 genesis0 3 2 1 Hlast
                  demo_least1 ltac:(lia) demo_least2 ltac:(lia)
                  demo_least3 ltac:(lia))).
Defined.

Lemma demo_flow_never_raises_witness :
  chain ledger0 <> [] /\
  demo_flow demo_id (clock 1700000060) (clock 1700000089) (clock 1700000149)
    (clock 1700000157) (clock 1700000217) (clock 1700000395) 10 ledger0
  <> Raises.
Proof.
  assert (Hchain : chain ledger0 <> []) by discriminate.
  split; [exact Hchain|].
  exact (proj1 (demo_flow_never_raises demo_id (clock 1700000060)
                  (clock 1700000089) (clock 1700000149) (clock 1700000157)
                  (clock 1700000217) (clock 1700000395) 10 ledger0 Hchain)).
Defined.
